(** * Data collection loop of [manual_control_record_e2c_diff_init.py]

    A shallow embedding of the part of the CARLA client that samples a
    reference path, draws random initial conditions around each reference
    waypoint, steps the world through one episode per initial condition and
    appends one waypoint-relative transition row per loop iteration to a csv
    file.

    Numbers.  Python floats are idealised as rationals ([Q]): arithmetic is
    exact and numeric equality is [Qeq] ([==]).  Rounding, infinities and NaN
    are outside the model.

    The display ([HUD], [FadingText]), the collision history, the camera
    manager, the weather, the keyboard control and the helpers that write the
    training files are embedded after the loop, with a state of their own
    ([Ui]).

    Collaborators.  The simulator, the road graph, the keyboard and the
    pseudo random generator are external to the script; they are gathered in
    the record [Env] as oracles indexed by the number of calls made so far (or
    by the current frame), and the script's own mutable state is the record
    [State]. *)

From Stdlib Require Import String QArith Qround Qabs Qfield Lqa ZArith.
From Stdlib Require Import Bool Lia PeanoNat Ascii List.
From Stdlib Require Decimal DecimalString DecimalN.
Import ListNotations.

Local Open Scope Q_scope.

(** ** Numbers *)

(** Python's [a < b] on floats. *)
Definition Qltb (a b : Q) : bool := negb (Qle_bool b a).

(** ** The carla data model *)

(** [carla.Location] *)
Record Location := mkLocation { loc_x : Q; loc_y : Q; loc_z : Q }.

(** [carla.Rotation]; omitted constructor arguments default to [0]. *)
Record Rotation := mkRotation { pitch : Q; yaw : Q; roll : Q }.

(** [carla.Transform] *)
Record Transform := mkTransform { location : Location; rotation : Rotation }.

(** [carla.Vector3D] *)
Record Vector3D := mkVector3D { vec_x : Q; vec_y : Q; vec_z : Q }.

(** [carla.VehicleControl], restricted to the attributes the loop reads. *)
Record VehicleControl := mkControl { throttle : Q; steer : Q; brake : Q }.

(** [carla.Waypoint]: the attributes the loop reads.  The successor query
    [wp.next(d)] belongs to the road graph, see [Env]. *)
Record Waypoint := mkWaypoint { transform : Transform; lane_width : Q }.

(** Commands sent to the hero vehicle. *)
Inductive Command :=
| SetTransform (tf : Transform)
| SetVelocity (v : Vector3D).

(** Python exceptions raised by the modelled code.  A [ValueError] carries
    the format template of its message and the values formatted into it. *)
Inductive exn :=
| ValueError (template : string) (args : list Q)
| IndexError
| ZeroDivisionError.

(** ** Collaborators and state *)

Record Env := mkEnv {
  (** [map.get_waypoint(location)]: projection onto the road. *)
  get_waypoint : Location -> Waypoint;
  (** [waypoint.next(distance)]: the successors at the given arc length. *)
  next : Waypoint -> Q -> list Waypoint;
  (** value of the k-th call of [random.random()] *)
  random_draw : nat -> Q;
  (** raw index drawn by the k-th call of [random.choice] *)
  choice_draw : nat -> nat;
  (** number of frames by which the k-th [wait_for_tick] advances the
      simulation; the call blocks until a new frame, hence [positive]. *)
  frames_per_wait : nat -> positive;
  (** does the k-th [controller.parse_events] see a quit event? *)
  quit_event : nat -> bool;
  (** [len(world.get_actors().filter(vehicle_name))] at the k-th [World.tick] *)
  hero_count : nat -> nat;
  (** state of the hero vehicle as the client sees it at a frame *)
  vehicle_transform : Z -> Transform;
  vehicle_velocity : Z -> Vector3D;
  vehicle_control : Z -> VehicleControl
}.

Record State := mkState {
  frame_number : Z;            (** [hud.frame_number], set by [on_world_tick] *)
  waits : nat;                 (** calls of [wait_for_tick] so far *)
  polls : nat;                 (** calls of [parse_events] so far *)
  world_ticks : nat;           (** calls of [World.tick] so far *)
  randoms : nat;               (** calls of [random.random] so far *)
  choices : nat;               (** calls of [random.choice] so far *)
  commands : list Command;     (** commands sent to the vehicle, oldest first *)
  outfile : list (list Q)      (** rows of [long_states_2.csv], oldest first *)
}.

(** ** Control flow: a state monad with exceptions and early return *)

Inductive outcome (A : Type) :=
| Normal (a : A)       (** the statement ran to its end *)
| Raised (e : exn)     (** an exception is propagating *)
| Returned             (** a [return] of [game_loop] is unwinding the loops *)
| Diverged.            (** the iteration bound of a [while] was exhausted *)
Arguments Normal {A} a.
Arguments Raised {A} e.
Arguments Returned {A}.
Arguments Diverged {A}.

Definition M (A : Type) : Type := State -> outcome A * State.

Definition ret {A} (a : A) : M A := fun s => (Normal a, s).

Definition bind {A B} (c : M A) (k : A -> M B) : M B :=
  fun s =>
    match c s with
    | (Normal a, s') => k a s'
    | (Raised e, s') => (Raised e, s')
    | (Returned, s') => (Returned, s')
    | (Diverged, s') => (Diverged, s')
    end.

Definition raise {A} (e : exn) : M A := fun s => (Raised e, s).

(** [return] inside [game_loop]. *)
Definition return_ {A} : M A := fun s => (Returned, s).

Declare Scope py_scope.
Delimit Scope py_scope with py.
Notation "x <- c ;; k" := (bind c (fun x => k))
  (at level 61, c at next level, right associativity) : py_scope.
Notation "c ;;; k" := (bind c (fun _ => k))
  (at level 61, right associativity) : py_scope.
Local Open Scope py_scope.

(** ** [norm] *)

(** Python's true division [a / b]. *)
Definition py_div (a b : Q) : M Q :=
  if Qeq_bool b 0 then raise ZeroDivisionError else ret (a / b).



(** ** Primitive effects *)

Section Script.

Variable env : Env.

Definition bump_randoms (s : State) : State :=
  mkState (frame_number s) (waits s) (polls s) (world_ticks s)
          (S (randoms s)) (choices s) (commands s) (outfile s).

Definition bump_choices (s : State) : State :=
  mkState (frame_number s) (waits s) (polls s) (world_ticks s)
          (randoms s) (S (choices s)) (commands s) (outfile s).

Definition bump_polls (s : State) : State :=
  mkState (frame_number s) (waits s) (S (polls s)) (world_ticks s)
          (randoms s) (choices s) (commands s) (outfile s).

Definition bump_world_ticks (s : State) : State :=
  mkState (frame_number s) (waits s) (polls s) (S (world_ticks s))
          (randoms s) (choices s) (commands s) (outfile s).

Definition advance_frame (s : State) : State :=
  mkState (frame_number s + Z.pos (frames_per_wait env (waits s)))%Z
          (S (waits s)) (polls s) (world_ticks s)
          (randoms s) (choices s) (commands s) (outfile s).

Definition send (c : Command) (s : State) : State :=
  mkState (frame_number s) (waits s) (polls s) (world_ticks s)
          (randoms s) (choices s) (commands s ++ [c]) (outfile s).

Definition append_row (row : list Q) (s : State) : State :=
  mkState (frame_number s) (waits s) (polls s) (world_ticks s)
          (randoms s) (choices s) (commands s) (outfile s ++ [row]).

(** [random.random()] *)
Definition random_random : M Q :=
  fun s => (Normal (random_draw env (randoms s)), bump_randoms s).

(** [random.choice(seq)]: [IndexError] on an empty sequence, otherwise the
    element at the drawn index reduced modulo the length. *)
Definition random_choice {A} (seq : list A) : M A :=
  fun s =>
    match nth_error seq (choice_draw env (choices s) mod length seq) with
    | Some a => (Normal a, bump_choices s)
    | None => (Raised IndexError, s)
    end.

(** [seq[i]] for a non negative [i] *)
Definition py_index {A} (seq : list A) (i : nat) : M A :=
  match nth_error seq i with
  | Some a => ret a
  | None => raise IndexError
  end.

(** [seq[-1]] *)
Definition py_last {A} (seq : list A) : M A :=
  match rev seq with
  | a :: _ => ret a
  | [] => raise IndexError
  end.

(** [world.world.wait_for_tick()]; the registered callback
    [hud.on_world_tick] stores the new frame in [hud.frame_number]. *)
Definition wait_for_tick : M unit :=
  fun s => (Normal tt, advance_frame s).

(** [controller.parse_events(world, clock)]: truthy exactly on a quit event *)
Definition parse_events : M bool :=
  fun s => (Normal (quit_event env (polls s)), bump_polls s).

(** [World.tick]: [False] when fewer than one actor carries the hero's name *)
Definition World_tick : M bool :=
  fun s => (Normal (negb (hero_count env (world_ticks s) <? 1)%nat),
            bump_world_ticks s).

Definition get_transform : M Transform :=
  fun s => (Normal (vehicle_transform env (frame_number s)), s).

Definition get_velocity : M Vector3D :=
  fun s => (Normal (vehicle_velocity env (frame_number s)), s).

Definition get_control : M VehicleControl :=
  fun s => (Normal (vehicle_control env (frame_number s)), s).

Definition set_transform (tf : Transform) : M unit :=
  fun s => (Normal tt, send (SetTransform tf) s).

Definition set_velocity (v : Vector3D) : M unit :=
  fun s => (Normal tt, send (SetVelocity v) s).

(** [csv.writer(csvFile).writerow(row)] on the file opened in mode ['a+'] *)
Definition writerow (row : list Q) : M unit :=
  fun s => (Normal tt, append_row row s).

(** ** Initial conditions *)

(** The local constant [radius = 1.8]. *)
Definition radius : Q := 18 # 10.

Definition radius_template : string := "radius < wp.lane_width/2".

(** One pass of [for i in range(num)] in [generate_random_starting_pts]. *)
Definition starting_pt (center : Location) : M Transform :=
  u1 <- random_random ;;
  let x := loc_x center + radius * (2 * u1 - 1) in
  u2 <- random_random ;;
  let y := loc_y center + radius * (2 * u2 - 1) in
  let z := loc_z center in
  u3 <- random_random ;;
  let yaw := 180 * (2 * u3 - 1) in
  ret (mkTransform (mkLocation x y z) (mkRotation 0 yaw 0)).

Fixpoint starting_pts_loop (center : Location) (num : nat)
    (x0s : list Transform) : M (list Transform) :=
  match num with
  | O => ret x0s
  | S num' =>
      x0 <- starting_pt center ;;
      starting_pts_loop center num' (x0s ++ [x0])
  end.

Definition generate_random_starting_pts (wp : Waypoint) (num : nat)
    : M (list Transform) :=
  let center := location (transform wp) in
  if Qltb radius (lane_width wp / 2) then
    raise (ValueError radius_template [])
  else
    starting_pts_loop center num [].

Definition generate_random_velocity (max_vel : Q) : M Vector3D :=
  u1 <- random_random ;;
  u2 <- random_random ;;
  ret (mkVector3D (max_vel * (2 * u1 - 1)) (max_vel * (2 * u2 - 1)) 0).

(** ** Arrays *)

(** [np.array([tf.location.x, ..., tf.rotation.roll])] *)
Definition transform_to_arr (tf : Transform) : list Q :=
  [loc_x (location tf); loc_y (location tf); loc_z (location tf);
   pitch (rotation tf); yaw (rotation tf); roll (rotation tf)].

(** [a - b] on two one-dimensional arrays of the same shape *)
Definition np_sub (a b : list Q) : list Q :=
  map (fun p => fst p - snd p) (combine a b).

(** [m - v] on a two-dimensional array and a row: broadcast over the rows *)
Definition np_sub_rows (m : list (list Q)) (v : list Q) : list (list Q) :=
  map (fun row => np_sub row v) m.

(** [m.flatten()], row major *)
Definition flatten (m : list (list Q)) : list Q := concat m.

(** [np.hstack(arrays)] on one-dimensional arrays *)
Definition hstack (arrays : list (list Q)) : list Q := concat arrays.

(** [np.array([loc.x, loc.y])] *)
Definition xy (loc : Location) : list Q := [loc_x loc; loc_y loc].

(** ** One recorded transition *)

(** [for j in range(horizon)]: extend the window by a random successor of
    its last waypoint. *)
Fixpoint future_wps_loop (sampling_radius : Q) (horizon : nat)
    (future_wps : list Waypoint) : M (list Waypoint) :=
  match horizon with
  | O => ret future_wps
  | S horizon' =>
      w <- py_last future_wps ;;
      w' <- random_choice (next env w sampling_radius) ;;
      future_wps_loop sampling_radius horizon' (future_wps ++ [w'])
  end.

(** The array [future_wps_np] after the subtraction of [cur_wp]'s position *)
Definition future_wps_np (cur_wp : Waypoint) (future_wps : list Waypoint)
    : list (list Q) :=
  np_sub_rows (map (fun w => xy (location (transform w))) future_wps)
              (xy (location (transform cur_wp))).

(** The expression bound to [row]. *)
Definition transition_row (control : VehicleControl)
    (cur_loc : Transform) (cur_vel : Vector3D)
    (next_loc : Transform) (next_vel : Vector3D)
    (cur_wp : Waypoint) (future_np : list (list Q)) : list Q :=
  hstack
    [ [throttle control; steer control; brake control];
      transform_to_arr cur_loc;
      [vec_x cur_vel; vec_y cur_vel; vec_z cur_vel];
      transform_to_arr next_loc;
      [vec_x next_vel; vec_y next_vel; vec_z next_vel];
      np_sub (xy (location cur_loc)) (xy (location (transform cur_wp)));
      flatten future_np;
      np_sub (xy (location next_loc)) (xy (location (transform cur_wp))) ].

(** Assembling the row and appending it to the csv file. *)
Definition record_transition (control : VehicleControl)
    (cur_loc : Transform) (cur_vel : Vector3D)
    (next_loc : Transform) (next_vel : Vector3D)
    (cur_wp : Waypoint) (future_np : list (list Q)) : M unit :=
  writerow (transition_row control cur_loc cur_vel next_loc next_vel
                           cur_wp future_np).

(** One pass through the body of the [while] loop.  Printing, rendering and
    [clock.tick_busy_loop] do not touch the modelled state. *)
Definition loop_body (sampling_radius : Q) (horizon : nat) : M unit :=
  quit <- parse_events ;;
  if quit then return_ else
  alive <- World_tick ;;
  if negb alive then return_ else
  wait_for_tick ;;;
  cur_loc <- get_transform ;;
  cur_vel <- get_velocity ;;
  control <- get_control ;;
  let cur_wp := get_waypoint env (location cur_loc) in
  future_wps <- future_wps_loop sampling_radius horizon [cur_wp] ;;
  let future_np := future_wps_np cur_wp future_wps in
  wait_for_tick ;;;
  next_loc <- get_transform ;;
  next_vel <- get_velocity ;;
  record_transition control cur_loc cur_vel next_loc next_vel cur_wp future_np.

(** ** One episode *)

(** [while hud.frame_number - init_frame_number < budget: body].  The
    recursion is bounded by [fuel]; [while_enough_fuel] below shows that
    [budget] passes always suffice. *)
Fixpoint while_frames (fuel : nat) (budget init_frame_number : Z)
    (body : M unit) : M unit :=
  fun s =>
    if (frame_number s - init_frame_number <? budget)%Z then
      match fuel with
      | O => (Diverged, s)
      | S fuel' =>
          (body ;;; while_frames fuel' budget init_frame_number body) s
      end
    else (Normal tt, s).

(** The body of [for x0 in x0s]. *)
Definition run_episode (sampling_radius : Q) (horizon : nat) (budget : Z)
    (x0 : Transform) : M unit :=
  set_transform x0 ;;;
  init_vel <- generate_random_velocity 30 ;;
  set_velocity init_vel ;;;
  wait_for_tick ;;;
  fun s =>
    let init_frame_number := frame_number s in
    while_frames (Z.to_nat budget) budget init_frame_number
                 (loop_body sampling_radius horizon) s.

Fixpoint episodes (sampling_radius : Q) (horizon : nat) (budget : Z)
    (x0s : list Transform) : M unit :=
  match x0s with
  | [] => ret tt
  | x0 :: rest =>
      run_episode sampling_radius horizon budget x0 ;;;
      episodes sampling_radius horizon budget rest
  end.

(** ** The reference path and the whole loop *)

(** [for i in range(num_wp)], entered with [i] passes done: sample the next
    reference waypoint among the successors of [wps[i]], append it, then run
    [per_wp] on it.  The final [wps] is handed back for inspection. *)
Fixpoint ref_path_loop (per_wp : Waypoint -> M unit) (sampling_radius : Q)
    (num_wp i : nat) (wps : list Waypoint) : M (list Waypoint) :=
  match num_wp with
  | O => ret wps
  | S num_wp' =>
      prev <- py_index wps i ;;
      wp <- random_choice (next env prev sampling_radius) ;;
      let wps' := wps ++ [wp] in
      per_wp wp ;;;
      ref_path_loop per_wp sampling_radius num_wp' (S i) wps'
  end.

(** Everything [game_loop] does with a reference waypoint. *)
Definition collect_around (sampling_radius : Q) (num_init_pt horizon : nat)
    (budget : Z) (wp : Waypoint) : M unit :=
  x0s <- generate_random_starting_pts wp num_init_pt ;;
  episodes sampling_radius horizon budget x0s.

Definition game_loop_with (start_loc : Location) (sampling_radius : Q)
    (num_wp num_init_pt horizon : nat) (budget : Z) : M (list Waypoint) :=
  let org_wp := get_waypoint env start_loc in
  ref_path_loop (collect_around sampling_radius num_init_pt horizon budget)
                sampling_radius num_wp 0 [org_wp].

(** The constants of [game_loop]. *)
Definition num_wp : nat := 500.
Definition num_init_pt : nat := 200.
Definition horizon : nat := 50.
Definition start_loc : Location :=
  mkLocation (405405 # 1000) (- (5949 # 100)) 0.
Definition sampling_radius : Q := 2.
Definition frame_budget : Z := 400.

Definition game_loop : M unit :=
  _ <- game_loop_with start_loc sampling_radius num_wp num_init_pt horizon
                      frame_budget ;;
  ret tt.

End Script.

(** * Vocabulary of the statements *)

(** ** States and draws *)

(** The start state of the examples. *)
Definition fresh_state : State := mkState 0 0 0 0 0 0 [] [].


(** [s'] differs from [s] by [n] more draws of [random.random()] only. *)
Definition drew (n : nat) (s s' : State) : Prop :=
  s' = mkState (frame_number s) (waits s) (polls s) (world_ticks s)
               (n + randoms s) (choices s) (commands s) (outfile s).

(** [s'] differs from [s] by [n] more calls of [random.choice] only. *)
Definition chose (n : nat) (s s' : State) : Prop :=
  s' = mkState (frame_number s) (waits s) (polls s) (world_ticks s)
               (randoms s) (n + choices s) (commands s) (outfile s).

(** The transform built by one pass of the sampling loop from its three
    draws. *)
Definition pt_of_draws (center : Location) (u1 u2 u3 : Q) : Transform :=
  mkTransform
    (mkLocation (loc_x center + radius * (2 * u1 - 1))
                (loc_y center + radius * (2 * u2 - 1))
                (loc_z center))
    (mkRotation 0 (180 * (2 * u3 - 1)) 0).


(** A quit event or the loss of the hero occurs at some poll. *)
Definition interrupted (env : Env) : Prop :=
  (exists k, quit_event env k = true) \/
  (exists k, (hero_count env k < 1)%nat).

(** Some waypoint has no successor at distance [d]. *)
Definition dead_end (env : Env) (d : Q) : Prop :=
  exists v, next env v d = [].

(** How a loop of passes can end: normally, by a [return] caused by a quit
    event or the loss of the hero, or by the [IndexError] of a dead end. *)
Definition loop_end (env : Env) (d : Q) (o : outcome unit) : Prop :=
  o = Normal tt \/
  (o = Returned /\ interrupted env) \/
  (o = Raised IndexError /\ dead_end env d).

(** ** Paths and rows *)

(** Consecutive elements of [wps] are linked by the successor query. *)
Definition linked (env : Env) (d : Q) (wps : list Waypoint) : Prop :=
  forall i a b,
    nth_error wps i = Some a -> nth_error wps (S i) = Some b ->
    In b (next env a d).

(** Width of a row for a lookahead of [horizon] steps. *)
Definition row_width (horizon : nat) : nat :=
  3 + 6 + 3 + 6 + 3 + 2 + 2 * (horizon + 1) + 2.

(** Whatever its outcome, [c] only appends rows satisfying [P]. *)
Definition appends_rows (P : list Q -> Prop) {A} (c : M A) : Prop :=
  forall s, exists rows,
    outfile (snd (c s)) = outfile s ++ rows /\ Forall P rows.

(** Frames left before the loop condition fails. *)
Definition frames_left (budget init : Z) (s : State) : nat :=
  Z.to_nat (budget - (frame_number s - init)).

Section Vocabulary.

Variable env : Env.
Variable d : Q.
Variable horizon : nat.

(** The frame at which a pass entered in state [s] reads the pre-state, and
    the frame at which it reads the post-state. *)
Definition pre_frame (s : State) : Z :=
  (frame_number s + Z.pos (frames_per_wait env (waits s)))%Z.

Definition post_frame (s : State) : Z :=
  (pre_frame s + Z.pos (frames_per_wait env (S (waits s))))%Z.

(** The waypoint nearest to the pre-state location. *)
Definition pre_wp (s : State) : Waypoint :=
  get_waypoint env (location (vehicle_transform env (pre_frame s))).

(** The row written by a pass entered in state [s] whose window loop
    appended the waypoints [extra] to [cur_wp]. *)
Definition recorded_row (s : State) (extra : list Waypoint) : list Q :=
  transition_row
    (vehicle_control env (pre_frame s))
    (vehicle_transform env (pre_frame s))
    (vehicle_velocity env (pre_frame s))
    (vehicle_transform env (post_frame s))
    (vehicle_velocity env (post_frame s))
    (pre_wp s)
    (future_wps_np (pre_wp s) (pre_wp s :: extra)).

(** The four ways a pass can end. *)
Inductive pass_end (d : Q) (horizon : nat) (s : State)
    : outcome unit -> State -> Prop :=
| pass_quit :
    quit_event env (polls s) = true ->
    pass_end d horizon s Returned (bump_polls s)
| pass_no_hero :
    quit_event env (polls s) = false ->
    (hero_count env (world_ticks s) < 1)%nat ->
    pass_end d horizon s Returned (bump_world_ticks (bump_polls s))
| pass_dead_end k :
    quit_event env (polls s) = false ->
    (1 <= hero_count env (world_ticks s))%nat ->
    (k < horizon)%nat ->
    dead_end env d ->
    pass_end d horizon s (Raised IndexError)
      (mkState (pre_frame s) (S (waits s)) (S (polls s))
               (S (world_ticks s)) (randoms s) (k + choices s)
               (commands s) (outfile s))
| pass_recorded extra :
    quit_event env (polls s) = false ->
    (1 <= hero_count env (world_ticks s))%nat ->
    length extra = horizon ->
    linked env d (pre_wp s :: extra) ->
    pass_end d horizon s (Normal tt)
      (mkState (post_frame s) (S (S (waits s))) (S (polls s))
               (S (world_ticks s)) (randoms s) (horizon + choices s)
               (commands s) (outfile s ++ [recorded_row s extra])).

End Vocabulary.

Section RowVocabulary.

Variable env : Env.
Variable d : Q.
Variable horizon : nat.

(** [row] is the row of some pass whose window loop succeeded. *)
Definition is_recorded (row : list Q) : Prop :=
  exists s extra,
    length extra = horizon /\ linked env d (pre_wp env s :: extra) /\
    row = recorded_row env s extra.

(** The state in which the [while] loop of an episode is entered: the two
    commands are sent, two random numbers are drawn for the velocity and
    one tick has passed. *)
Definition installed (x0 : Transform) (s : State) : State :=
  let s1 := send (SetTransform x0) s in
  let v := mkVector3D (30 * (2 * random_draw env (randoms s1) - 1))
                      (30 * (2 * random_draw env (S (randoms s1)) - 1)) 0 in
  advance_frame env (send (SetVelocity v) (bump_randoms (bump_randoms s1))).


(** The three waypoint-relative fields are taken against one waypoint, the
    one nearest to the pre-state location. *)
Definition relative_to_pre_waypoint (s : State) (row : list Q) : Prop :=
  let cur_loc := location (vehicle_transform env (pre_frame env s)) in
  let next_loc := location (vehicle_transform env (post_frame env s)) in
  let cur_wp := get_waypoint env cur_loc in
  let w := location (transform cur_wp) in
  (pre_frame env s < post_frame env s)%Z /\
  exists prefix extra,
    length prefix = 21%nat /\ length extra = horizon /\
    linked env d (cur_wp :: extra) /\
    row = prefix ++
          [loc_x cur_loc - loc_x w; loc_y cur_loc - loc_y w] ++
          flatten (future_wps_np cur_wp (cur_wp :: extra)) ++
          [loc_x next_loc - loc_x w; loc_y next_loc - loc_y w].

(** Adding the waypoint's position back to [rel_pre] gives the pre-state
    position. *)
Definition rel_pre_round_trip (s : State) (row : list Q) : Prop :=
  let cur_loc := location (vehicle_transform env (pre_frame env s)) in
  let w := location (transform (get_waypoint env cur_loc)) in
  exists rx ry,
    nth_error row 21 = Some rx /\ nth_error row 22 = Some ry /\
    rx + loc_x w == loc_x cur_loc /\ ry + loc_y w == loc_y cur_loc.

(** The lookahead field starts with the pair (0, 0). *)
Definition lookahead_starts_at_zero (row : list Q) : Prop :=
  exists prefix a b rest rel_post,
    row = prefix ++ ([a; b] ++ rest) ++ rel_post /\
    length prefix = (3 + 6 + 3 + 6 + 3 + 2)%nat /\
    length rest = (2 * horizon)%nat /\ length rel_post = 2%nat /\
    a == 0 /\ b == 0.

End RowVocabulary.

(** ** The csv file as text *)

Section Csv.

(** How a number is printed in the file. *)
Variable repr : Q -> string.

(** [writerow] prints the fields separated by commas and ends the line with
    carriage return and line feed, the default dialect of [csv.writer]. *)
Definition csv_line (row : list Q) : string :=
  (String.concat "," (map repr row) ++
   String (Ascii.ascii_of_nat 13) (String (Ascii.ascii_of_nat 10) ""))%string.

(** The text of the file. *)
Fixpoint csv_text (rows : list (list Q)) : string :=
  match rows with
  | [] => ""%string
  | row :: rest => (csv_line row ++ csv_text rest)%string
  end.

End Csv.

(** ** A concrete world for the examples

    A straight road along the x axis with a waypoint at every rational
    abscissa; a waypoint has two successors, one at the full distance and
    one half way.  The hero moves one unit per frame. *)

Definition wp_at (x lw : Q) : Waypoint :=
  mkWaypoint (mkTransform (mkLocation x 0 0) (mkRotation 0 0 0)) lw.

Definition straight_road : Env :=
  mkEnv
    (fun loc => wp_at (inject_Z (Qfloor (loc_x loc))) 3)
    (fun w d =>
       let x := loc_x (location (transform w)) in
       [wp_at (Qred (x + d)) (lane_width w);
        wp_at (Qred (x + d / 2)) (lane_width w)])
    (fun k => if Nat.even k then 0 else 3 # 4)
    (fun k => k)
    (fun _ => 1%positive)
    (fun _ => false)
    (fun _ => 1%nat)
    (fun f => mkTransform (mkLocation (inject_Z f + (1 # 4)) (1 # 3) 0)
                          (mkRotation 0 90 0))
    (fun f => mkVector3D 1 0 0)
    (fun f => mkControl (1 # 2) 0 0).


(** * The display *)

(** Python's [max(a, b)]: the first argument unless the second is larger. *)
Definition py_max2 (a b : Q) : Q := if Qltb a b then b else a.

(** Python's [max(seq)]: [ValueError] on an empty sequence. *)
Definition py_max (seq : list Q) : M Q :=
  match seq with
  | [] => raise (ValueError "max() arg is an empty sequence" [])
  | x :: rest => ret (fold_left py_max2 rest x)
  end.

(** A text shown by the HUD: a format string and the strings formatted into
    it. *)
Definition text : Type := (string * list string)%type.

(** [FadingText]: what its surface shows, the seconds left and the alpha set
    on the surface ([None] on a surface whose alpha was never set). *)
Record FadingText := mkFadingText {
  ft_text : option text;
  seconds_left : Q;
  ft_alpha : option Q
}.

(** [FadingText.__init__] *)
Definition FadingText_init : FadingText := mkFadingText None 0 None.

(** [FadingText.set_text(text, color, seconds)]: a new surface with the
    text. *)
Definition FadingText_set_text (t : text) (seconds : Q) (self : FadingText)
    : FadingText :=
  mkFadingText (Some t) seconds None.




(** The part of [HUD] that the modelled methods touch. *)
Record HUD := mkHUD {
  _show_info : bool;
  _notifications : FadingText;
  help_render : bool            (** [HelpText._render] *)
}.

(** [HUD.toggle_info] *)
Definition HUD_toggle_info (self : HUD) : HUD :=
  mkHUD (negb (_show_info self)) (_notifications self) (help_render self).

(** [HelpText.toggle] on [hud.help] *)
Definition HelpText_toggle (self : HUD) : HUD :=
  mkHUD (_show_info self) (_notifications self) (negb (help_render self)).

(** [HUD.notification(text, seconds)] *)
Definition HUD_notification (t : text) (seconds : Q) (self : HUD) : HUD :=
  mkHUD (_show_info self)
        (FadingText_set_text t seconds (_notifications self))
        (help_render self).

(** The default [seconds=2.0] of [HUD.notification]. *)
Definition notification_seconds : Q := 2.

(** The heading computed by [HUD.tick] from the yaw of the vehicle. *)
Definition HUD_tick_heading (yaw : Q) : string :=
  let heading :=
    (if Qltb (Qabs yaw) (895 # 10) then "N" else "")%string in
  let heading :=
    (heading ++ (if Qltb (905 # 10) (Qabs yaw) then "S" else ""))%string in
  let heading :=
    (heading ++
     (if Qltb yaw (1795 # 10) && Qltb (5 # 10) yaw then "E" else ""))%string
  in
  let heading :=
    (heading ++
     (if Qltb yaw (- (5 # 10)) && Qltb (- (1795 # 10)) yaw
      then "W" else ""))%string
  in heading.

(** ** Collisions *)

(** A [collections.defaultdict(int)] keyed by frames, in insertion order. *)
Definition defaultdict : Type := list (Z * Q).

(** [d[k]] (a missing key reads as 0) *)
Fixpoint dict_get (d : defaultdict) (k : Z) : Q :=
  match d with
  | [] => 0
  | (k', v) :: rest => if (k =? k')%Z then v else dict_get rest k
  end.

(** [d[k] += v] *)
Fixpoint dict_add (d : defaultdict) (k : Z) (v : Q) : defaultdict :=
  match d with
  | [] => [(k, 0 + v)]
  | (k', v') :: rest =>
      if (k =? k')%Z then (k', v' + v) :: rest
      else (k', v') :: dict_add rest k v
  end.

(** [CollisionSensor.get_collision_history] on [self._history] *)
Definition get_collision_history (_history : list (Z * Q)) : defaultdict :=
  fold_left (fun history entry => dict_add history (fst entry) (snd entry))
            _history [].

(** The attributes of a collision event that [_on_collision] reads;
    [actor_type] is the display name of [event.other_actor]. *)
Record CollisionEvent := mkCollisionEvent {
  event_frame_number : Z;
  normal_impulse : Vector3D;
  actor_type : string
}.

(** The sum of the intensities recorded for frame [f]. *)
Definition intensity_at (_history : list (Z * Q)) (f : Z) : Q :=
  fold_right (fun entry acc =>
                if (f =? fst entry)%Z then snd entry + acc else acc)
             0 _history.

(** The entries that [HUD.tick] reads from the history, before scaling. *)
Definition last_200_frames (colhist : defaultdict) (frame : Z) : list Q :=
  map (fun x => dict_get colhist (Z.of_nat x + frame - 200)%Z) (seq 0 200).

Section Collision.

(** [math.sqrt] *)
Variable sqrt : Q -> Q.

(** [CollisionSensor._on_collision(weak_self, event)] on the history of the
    sensor and its HUD; [alive] tells whether [weak_self()] still gives the
    sensor. *)
Definition CollisionSensor_on_collision (alive : bool)
    (event : CollisionEvent) (self : list (Z * Q) * HUD)
    : list (Z * Q) * HUD :=
  if negb alive then self else
  let hud := HUD_notification ("Collision with %r"%string,
                               [actor_type event])
                              notification_seconds (snd self) in
  let impulse := normal_impulse event in
  let intensity :=
    sqrt (vec_x impulse * vec_x impulse + vec_y impulse * vec_y impulse +
          vec_z impulse * vec_z impulse) in
  let _history := fst self ++ [(event_frame_number event, intensity)] in
  let _history :=
    if (4000 <? length _history)%nat then tl _history else _history in
  (_history, hud).

End Collision.

(** [[x / max_col for x in collision]] *)
Fixpoint div_each (collision : list Q) (max_col : Q) : M (list Q) :=
  match collision with
  | [] => ret []
  | x :: rest =>
      y <- py_div x max_col ;;
      ys <- div_each rest max_col ;;
      ret (y :: ys)
  end.

(** The collision graph computed by [HUD.tick]: the last 200 frames of the
    history, scaled by their maximum when it exceeds 1. *)
Definition HUD_tick_collision (colhist : defaultdict) (frame : Z)
    : M (list Q) :=
  let collision :=
    map (fun x => dict_get colhist (Z.of_nat x + frame - 200)%Z)
        (seq 0 200) in
  m <- py_max collision ;;
  let max_col := py_max2 1 m in
  div_each collision max_col.


(** * Keyboard, camera and weather *)

(** ['{:08d}'.format(n)]: the decimal digits of [n], padded with zeros on
    the left to eight characters, the sign included. *)
Fixpoint zeros (k : nat) (digits : string) : string :=
  match k with
  | O => digits
  | S k' => String "0"%char (zeros k' digits)
  end.

Definition digits_of (n : N) : string :=
  DecimalString.NilEmpty.string_of_uint (N.to_uint n).

Definition format_08d (n : Z) : string :=
  if (n <? 0)%Z then
    let digits := digits_of (Z.to_N (- n)) in
    String "-"%char (zeros (7 - String.length digits) digits)
  else
    let digits := digits_of (Z.to_N n) in
    zeros (8 - String.length digits) digits.

(** The exceptions of this part: those of [exn] and two more. *)
Inductive ui_exn :=
| Builtin (e : exn)
| TypeError
| AttributeError (attribute : string).

Inductive result (A : Type) :=
| Ok (a : A)
| Err (e : ui_exn).
Arguments Ok {A} a.
Arguments Err {A} e.

(** Python's [min(a, b)]: the first argument unless the second is smaller. *)
Definition py_min2 (a b : Q) : Q := if Qltb b a then b else a.

(** [seq[i]] for any integer [i]: negative indices count from the end. *)
Definition py_getitem {A} (seq : list A) (i : Z) : option A :=
  let n := Z.of_nat (length seq) in
  if ((0 <=? i) && (i <? n))%Z then nth_error seq (Z.to_nat i)
  else if ((- n <=? i) && (i <? 0))%Z then nth_error seq (Z.to_nat (n + i))
  else None.

(** A sensor actor spawned in the simulator: its identity, the id of its
    blueprint and the index of the camera transform it is mounted at. *)
Record SensorActor := mkSensorActor {
  actor_id : nat;
  blueprint : string;
  mounted_at : Z
}.

(** What [CameraManager._surface] was made from. *)
Inductive Surface :=
| LidarSurface (frame : Z)
| CameraSurface (converter : string) (frame : Z).

(** [KeyboardControl._control], a [carla.VehicleControl]. *)
Record KeyControl := mkKeyControl {
  kc_throttle : Q;
  kc_steer : Q;
  kc_brake : Q;
  hand_brake : bool;
  reverse : bool
}.

(** The calls made into the simulator. *)
Inductive Action :=
| Spawn (a : SensorActor)
| Destroy (id : nat)
| SensorSetTransform (id : nat) (index : Z)
| SetWeather (w : nat)
| SetAutopilot (b : bool)
| ApplyControl (c : KeyControl)
| SaveToDisk (path : string).

(** The mutable state of [World], [HUD], [CameraManager] and
    [KeyboardControl] that the modelled methods read and write. *)
Record Ui := mkUi {
  hud : HUD;
  sensor : option SensorActor;       (** [CameraManager.sensor] *)
  _surface : option Surface;
  _recording : bool;
  _transform_index : Z;
  _index : option Z;
  _weather_index : Z;                (** [World._weather_index] *)
  _autopilot_enabled : bool;         (** [KeyboardControl] *)
  _control : KeyControl;
  _steer_cache : Q;
  spawned : nat;                     (** actors spawned so far *)
  actions : list Action              (** calls made so far, oldest first *)
}.

Definition with_hud (h : HUD) (u : Ui) : Ui :=
  mkUi h (sensor u) (_surface u) (_recording u) (_transform_index u)
       (_index u) (_weather_index u) (_autopilot_enabled u) (_control u)
       (_steer_cache u) (spawned u) (actions u).

Definition with_sensor (a : option SensorActor) (u : Ui) : Ui :=
  mkUi (hud u) a (_surface u) (_recording u) (_transform_index u)
       (_index u) (_weather_index u) (_autopilot_enabled u) (_control u)
       (_steer_cache u) (spawned u) (actions u).

Definition with_surface (f : option Surface) (u : Ui) : Ui :=
  mkUi (hud u) (sensor u) f (_recording u) (_transform_index u)
       (_index u) (_weather_index u) (_autopilot_enabled u) (_control u)
       (_steer_cache u) (spawned u) (actions u).

Definition with_recording (b : bool) (u : Ui) : Ui :=
  mkUi (hud u) (sensor u) (_surface u) b (_transform_index u)
       (_index u) (_weather_index u) (_autopilot_enabled u) (_control u)
       (_steer_cache u) (spawned u) (actions u).

Definition with_transform_index (i : Z) (u : Ui) : Ui :=
  mkUi (hud u) (sensor u) (_surface u) (_recording u) i
       (_index u) (_weather_index u) (_autopilot_enabled u) (_control u)
       (_steer_cache u) (spawned u) (actions u).

Definition with_index (i : option Z) (u : Ui) : Ui :=
  mkUi (hud u) (sensor u) (_surface u) (_recording u) (_transform_index u)
       i (_weather_index u) (_autopilot_enabled u) (_control u)
       (_steer_cache u) (spawned u) (actions u).

Definition with_weather_index (i : Z) (u : Ui) : Ui :=
  mkUi (hud u) (sensor u) (_surface u) (_recording u) (_transform_index u)
       (_index u) i (_autopilot_enabled u) (_control u)
       (_steer_cache u) (spawned u) (actions u).

Definition with_autopilot (b : bool) (u : Ui) : Ui :=
  mkUi (hud u) (sensor u) (_surface u) (_recording u) (_transform_index u)
       (_index u) (_weather_index u) b (_control u)
       (_steer_cache u) (spawned u) (actions u).

Definition with_control (c : KeyControl) (u : Ui) : Ui :=
  mkUi (hud u) (sensor u) (_surface u) (_recording u) (_transform_index u)
       (_index u) (_weather_index u) (_autopilot_enabled u) c
       (_steer_cache u) (spawned u) (actions u).

Definition with_steer_cache (c : Q) (u : Ui) : Ui :=
  mkUi (hud u) (sensor u) (_surface u) (_recording u) (_transform_index u)
       (_index u) (_weather_index u) (_autopilot_enabled u) (_control u)
       c (spawned u) (actions u).

(** A call into the simulator. *)
Definition act (a : Action) (u : Ui) : Ui :=
  mkUi (hud u) (sensor u) (_surface u) (_recording u) (_transform_index u)
       (_index u) (_weather_index u) (_autopilot_enabled u) (_control u)
       (_steer_cache u) (spawned u) (actions u ++ [a]).

(** [world.spawn_actor]: a fresh actor. *)
Definition spawn (bp : string) (at_index : Z) (u : Ui) : SensorActor * Ui :=
  let a := mkSensorActor (spawned u) bp at_index in
  (a,
   mkUi (hud u) (sensor u) (_surface u) (_recording u) (_transform_index u)
        (_index u) (_weather_index u) (_autopilot_enabled u) (_control u)
        (_steer_cache u) (S (spawned u)) (actions u ++ [Spawn a])).

(** [hud.notification(text)] on the HUD of the world *)
Definition notify (t : text) (seconds : Q) (u : Ui) : Ui :=
  with_hud (HUD_notification t seconds (hud u)) u.

(** ** [CameraManager] *)

(** [CameraManager._camera_transforms] *)
Definition _camera_transforms : list Transform :=
  [mkTransform (mkLocation 2 0 (14 # 10)) (mkRotation 0 0 0);
   mkTransform (mkLocation (- (55 # 10)) 0 (28 # 10))
               (mkRotation (- (15)) 0 0)].

(** [CameraManager._sensors]: blueprint id, colour converter and name. *)
Definition _sensors : list (string * string * string) :=
  [("sensor.camera.rgb", "Raw", "Camera RGB");
   ("sensor.camera.depth", "Raw", "Camera Depth (Raw)");
   ("sensor.camera.depth", "Depth", "Camera Depth (Gray Scale)");
   ("sensor.camera.depth", "LogarithmicDepth",
    "Camera Depth (Logarithmic Gray Scale)");
   ("sensor.camera.semantic_segmentation", "Raw",
    "Camera Semantic Segmentation (Raw)");
   ("sensor.camera.semantic_segmentation", "CityScapesPalette",
    "Camera Semantic Segmentation (CityScapes Palette)");
   ("sensor.lidar.ray_cast", "None", "Lidar (Ray-Cast)")]%string.

Definition sensor_type (item : string * string * string) : string :=
  fst (fst item).
Definition sensor_converter (item : string * string * string) : string :=
  snd (fst item).
Definition sensor_name (item : string * string * string) : string :=
  snd item.

(** [CameraManager.toggle_camera] *)
Definition CameraManager_toggle_camera (u : Ui) : result unit * Ui :=
  let i := ((_transform_index u + 1) mod
            Z.of_nat (length _camera_transforms))%Z in
  let u := with_transform_index i u in
  match sensor u with
  | None => (Err (AttributeError "set_transform"), u)
  | Some a =>
      match py_getitem _camera_transforms i with
      | None => (Err (Builtin IndexError), u)
      | Some _ =>
          (Ok tt,
           act (SensorSetTransform (actor_id a) i)
               (with_sensor
                  (Some (mkSensorActor (actor_id a) (blueprint a) i)) u))
      end
  end.

(** [CameraManager.set_sensor(index, notify)] *)
Definition CameraManager_set_sensor (index : Z) (notify_ : bool) (u : Ui)
    : result unit * Ui :=
  let index := (index mod Z.of_nat (length _sensors))%Z in
  match py_getitem _sensors index with
  | None => (Err (Builtin IndexError), u)
  | Some item =>
      let needs_respawn :=
        match _index u with
        | None => Ok true
        | Some old =>
            match py_getitem _sensors old with
            | None => Err (Builtin IndexError)
            | Some old_item =>
                Ok (negb (String.eqb (sensor_type item)
                                     (sensor_type old_item)))
            end
        end in
      match needs_respawn with
      | Err e => (Err e, u)
      | Ok respawn =>
          let after_respawn :=
            if respawn then
              let u1 :=
                match sensor u with
                | Some old => with_surface None (act (Destroy (actor_id old)) u)
                | None => u
                end in
              match py_getitem _camera_transforms (_transform_index u1) with
              | None => Err (Builtin IndexError)
              | Some _ =>
                  let (a, u2) :=
                    spawn (sensor_type item) (_transform_index u1) u1 in
                  Ok (with_sensor (Some a) u2)
              end
            else Ok u in
          match after_respawn with
          | Err e =>
              (Err e,
               match sensor u with
               | Some old => with_surface None (act (Destroy (actor_id old)) u)
               | None => u
               end)
          | Ok u3 =>
              let u4 :=
                if notify_ then
                  notify ("%s"%string, [sensor_name item])
                         notification_seconds u3
                else u3 in
              (Ok tt, with_index (Some index) u4)
          end
      end
  end.

(** [CameraManager.next_sensor] *)
Definition CameraManager_next_sensor (u : Ui) : result unit * Ui :=
  match _index u with
  | None => (Err TypeError, u)
  | Some i => CameraManager_set_sensor (i + 1) true u
  end.

(** [CameraManager.toggle_recording] *)
Definition CameraManager_toggle_recording (u : Ui) : result unit * Ui :=
  let u := with_recording (negb (_recording u)) u in
  (Ok tt,
   notify ("Recording %s"%string,
           [if _recording u then "On" else "Off"]%string)
          notification_seconds u).

(** [CameraManager._parse_image(weak_self, image, save_dir)] for the image of
    frame [frame]; [alive] tells whether [weak_self()] still gives the
    manager.  The numpy and pygame calls that turn the raw data of the image
    into a surface are taken to succeed; the surface records which of the two
    branches made it. *)
Definition CameraManager_parse_image (alive : bool) (frame : Z)
    (save_dir : option string) (u : Ui) : result unit * Ui :=
  if negb alive then (Ok tt, u) else
  match _index u with
  | None => (Err TypeError, u)
  | Some i =>
      match py_getitem _sensors i with
      | None => (Err (Builtin IndexError), u)
      | Some item =>
          let u :=
            if String.prefix "sensor.lidar" (sensor_type item) then
              with_surface (Some (LidarSurface frame)) u
            else
              with_surface
                (Some (CameraSurface (sensor_converter item) frame)) u in
          if _recording u then
            match save_dir with
            | None =>
                (Err (Builtin (ValueError "no valid dir to save image" [])),
                 u)
            | Some dir =>
                (Ok tt, act (SaveToDisk (dir ++ format_08d frame)%string) u)
            end
          else (Ok tt, u)
      end
  end.

(** The callback that [set_sensor] registers with [sensor.listen]: no
    [save_dir] is passed. *)
Definition registered_callback (alive : bool) (frame : Z) (u : Ui)
    : result unit * Ui :=
  CameraManager_parse_image alive frame None u.

(** ** [World] *)

Section Controls.

(** [World._weather_presets]: a weather and its name. *)
Variable _weather_presets : list (nat * string).

(** [World.next_weather(reverse)] *)
Definition World_next_weather (reverse_ : bool) (u : Ui) : result unit * Ui :=
  let u :=
    with_weather_index
      (_weather_index u + (if reverse_ then -1 else 1))%Z u in
  if (Z.of_nat (length _weather_presets) =? 0)%Z then
    (Err (Builtin ZeroDivisionError), u)
  else
    let u :=
      with_weather_index
        (_weather_index u mod Z.of_nat (length _weather_presets))%Z u in
    match py_getitem _weather_presets (_weather_index u) with
    | None => (Err (Builtin IndexError), u)
    | Some preset =>
        let u := notify ("Weather: %s"%string, [snd preset])
                        notification_seconds u in
        (Ok tt, act (SetWeather (fst preset)) u)
    end.

(** [World.restart]: the method [_get_random_blueprint] that it calls after
    reading the camera indices and the pose of the vehicle (a copy, which it
    modifies) is not defined by [World]; the attribute lookup raises before
    anything is destroyed or spawned. *)
Definition World_restart (u : Ui) : result unit * Ui :=
  (Err (AttributeError "_get_random_blueprint"), u).

(** ** [KeyboardControl] *)

(** The key codes of [pygame.locals] that the script imports. *)
Record Keys := mkKeys {
  K_0 : Z; K_9 : Z; K_BACKQUOTE : Z; K_BACKSPACE : Z; K_DOWN : Z;
  K_ESCAPE : Z; K_F1 : Z; K_LEFT : Z; K_RIGHT : Z; K_SLASH : Z;
  K_SPACE : Z; K_TAB : Z; K_UP : Z; K_a : Z; K_c : Z; K_d : Z; K_h : Z;
  K_p : Z; K_q : Z; K_r : Z; K_s : Z; K_w : Z
}.

Variable K : Keys.

(** [round(x, 1)] *)
Variable round1 : Q -> Q.

(** The events that [parse_events] tells apart. *)
Inductive Event :=
| QUIT
| KEYUP (key : Z)
| OtherEvent.

(** [pygame.key.get_mods()], as far as it is tested. *)
Record Mods := mkMods { KMOD_CTRL : bool; KMOD_SHIFT : bool }.

(** [KeyboardControl._is_quit_shortcut(key)] *)
Definition _is_quit_shortcut (mods : Mods) (key : Z) : bool :=
  (key =? K_ESCAPE K)%Z || ((key =? K_q K)%Z && KMOD_CTRL mods).

(** [KeyboardControl._parse_keys(keys, milliseconds)] *)
Definition _parse_keys (keys : Z -> bool) (milliseconds : Z) (u : Ui) : Ui :=
  let c := _control u in
  let throttle' := if keys (K_UP K) || keys (K_w K) then 1 else 0 in
  let steer_increment := (5 # 10000) * inject_Z milliseconds in
  let cache :=
    if keys (K_LEFT K) || keys (K_a K) then _steer_cache u - steer_increment
    else if keys (K_RIGHT K) || keys (K_d K)
         then _steer_cache u + steer_increment
         else 0 in
  let cache := py_min2 (7 # 10) (py_max2 (- (7 # 10)) cache) in
  let steer' := round1 cache in
  let brake' := if keys (K_DOWN K) || keys (K_s K) then 1 else 0 in
  with_control
    (mkKeyControl throttle' steer' brake' (keys (K_SPACE K)) (reverse c))
    (with_steer_cache cache u).

(** One pass of [for event in pygame.event.get()]: [Ok true] stands for
    [return True], [Ok false] for going on with the next event. *)
Definition handle_event (mods : Mods) (event : Event) (u : Ui)
    : result bool * Ui :=
  match event with
  | QUIT => (Ok true, u)
  | OtherEvent => (Ok false, u)
  | KEYUP key =>
      let go (r : result unit * Ui) : result bool * Ui :=
        match r with
        | (Ok _, u') => (Ok false, u')
        | (Err e, u') => (Err e, u')
        end in
      if _is_quit_shortcut mods key then (Ok true, u)
      else if (key =? K_BACKSPACE K)%Z then go (World_restart u)
      else if (key =? K_F1 K)%Z then
        (Ok false, with_hud (HUD_toggle_info (hud u)) u)
      else if (key =? K_h K)%Z
              || ((key =? K_SLASH K)%Z && KMOD_SHIFT mods) then
        (Ok false, with_hud (HelpText_toggle (hud u)) u)
      else if (key =? K_TAB K)%Z then go (CameraManager_toggle_camera u)
      else if (key =? K_c K)%Z && KMOD_SHIFT mods then
        go (World_next_weather true u)
      else if (key =? K_c K)%Z then go (World_next_weather false u)
      else if (key =? K_BACKQUOTE K)%Z then go (CameraManager_next_sensor u)
      else if (K_0 K <? key)%Z && (key <=? K_9 K)%Z then
        go (CameraManager_set_sensor (key - 1 - K_0 K) true u)
      else if (key =? K_r K)%Z then go (CameraManager_toggle_recording u)
      else if (key =? K_q K)%Z then
        let c := _control u in
        (Ok false,
         with_control
           (mkKeyControl (kc_throttle c) (kc_steer c) (kc_brake c)
                         (hand_brake c) (negb (reverse c))) u)
      else if (key =? K_p K)%Z then
        let u := with_autopilot (negb (_autopilot_enabled u)) u in
        let u := act (SetAutopilot (_autopilot_enabled u)) u in
        (Ok false,
         notify ("Autopilot %s"%string,
                 [if _autopilot_enabled u then "On" else "Off"]%string)
                notification_seconds u)
      else (Ok false, u)
  end.

(** [KeyboardControl.parse_events(world, clock)] on the queue of events:
    [Ok true] for [return True], [Ok false] for the implicit [None]. *)
Fixpoint parse_events_loop (mods : Mods) (events : list Event) (u : Ui)
    : result bool * Ui :=
  match events with
  | [] => (Ok false, u)
  | event :: rest =>
      match handle_event mods event u with
      | (Ok false, u') => parse_events_loop mods rest u'
      | stop => stop
      end
  end.

Definition KeyboardControl_parse_events (mods : Mods) (events : list Event)
    (keys : Z -> bool) (clock_get_time : Z) (u : Ui) : result bool * Ui :=
  match parse_events_loop mods events u with
  | (Ok false, u') =>
      if negb (_autopilot_enabled u') then
        let u' := _parse_keys keys clock_get_time u' in
        (Ok false, act (ApplyControl (_control u')) u')
      else (Ok false, u')
  | stop => stop
  end.

End Controls.

(** * The files written by the camera callback *)

Section Saving.

(** [np.save(path, x)] *)
Variable np_save : string -> list Q -> M unit.

(** The path shared by the [save_*] methods of [CameraManager]. *)
Definition ctv_path (save_dir : string) (frame_number : Z) : string :=
  (save_dir ++ format_08d frame_number ++ "_ctv")%string.

Definition save_control_for_e2c (frame_number : Z)
    (control : VehicleControl) (save_dir : string) : M unit :=
  let path := ctv_path save_dir frame_number in
  let x := [throttle control; steer control; brake control] in
  np_save path x.

Definition save_ctv_for_e2c (frame_number : Z) (control : VehicleControl)
    (transform : Transform) (velocity : Vector3D) (save_dir : string)
    : M unit :=
  let path := ctv_path save_dir frame_number in
  let loc := location transform in
  let rot := rotation transform in
  let x := [throttle control; steer control; brake control;
            loc_x loc; loc_y loc; loc_z loc; yaw rot; pitch rot; roll rot;
            vec_x velocity; vec_y velocity; vec_z velocity] in
  np_save path x.




End Saving.





(** ** Conditions on the world *)

(** The guard of [generate_random_starting_pts] lets [w] pass. *)
Definition narrow (w : Waypoint) : Prop := lane_width w / 2 <= radius.






(** [k] leading zeros in front of a decimal numeral. *)
Fixpoint lead (k : nat) (d : Decimal.uint) : Decimal.uint :=
  match k with
  | O => d
  | S k' => Decimal.D0 (lead k' d)
  end.

(** A world like the straight road in which a quit event is pending. *)
Definition quitting_road : Env :=
  mkEnv (get_waypoint straight_road) (next straight_road)
        (random_draw straight_road) (choice_draw straight_road)
        (frames_per_wait straight_road) (fun _ => true)
        (hero_count straight_road) (vehicle_transform straight_road)
        (vehicle_velocity straight_road) (vehicle_control straight_road).

(** A world like the straight road with lanes of width 4. *)
Definition wide_road : Env :=
  mkEnv (fun loc => wp_at (inject_Z (Qfloor (loc_x loc))) 4)
        (next straight_road)
        (random_draw straight_road) (choice_draw straight_road)
        (frames_per_wait straight_road) (quit_event straight_road)
        (hero_count straight_road) (vehicle_transform straight_road)
        (vehicle_velocity straight_road) (vehicle_control straight_road).


(** * The localization dataset *)

(** The row that [write_in_csv] builds. *)
Definition write_in_csv_row (loc : Location) (waypoint_tf : Transform)
    (lane_width_ : Q) (control : VehicleControl) : list Q :=
  [loc_x loc; loc_y loc; loc_z loc; lane_width_;
   loc_x (location waypoint_tf) - loc_x loc;
   loc_y (location waypoint_tf) - loc_y loc;
   loc_z (location waypoint_tf) - loc_z loc;
   pitch (rotation waypoint_tf); yaw (rotation waypoint_tf);
   roll (rotation waypoint_tf); throttle control; steer control].

(** [write_in_csv(location, waypoint_tf, lane_width, control, ds)] on the
    rows of the file [ds], opened in mode ['a+']. *)
Definition write_in_csv (loc : Location) (waypoint_tf : Transform)
    (lane_width_ : Q) (control : VehicleControl) (ds : list (list Q))
    : list (list Q) :=
  ds ++ [write_in_csv_row loc waypoint_tf lane_width_ control].

(** [record_dataset(world)] at the frame [frame] of the simulation. *)
Definition record_dataset (env : Env) (frame : Z) (ds : list (list Q))
    : list (list Q) :=
  let tf := vehicle_transform env frame in
  let loc := location tf in
  let waypoint := get_waypoint env (location tf) in
  let control := vehicle_control env frame in
  write_in_csv loc (transform waypoint) (lane_width waypoint) control ds.

(** ** Vocabulary for the keyboard, the camera and the weather *)

(** A state of a freshly built [World] and [KeyboardControl], before any
    sensor is set. *)
Definition fresh_ui : Ui :=
  mkUi (mkHUD true FadingText_init false) None None false 0 None 0 true
       (mkKeyControl 0 0 0 false false) 0 0 [].

(** Sensors spawned minus sensors destroyed. *)
Fixpoint live_sensors (l : list Action) : Z :=
  match l with
  | [] => 0
  | Spawn _ :: rest => 1 + live_sensors rest
  | Destroy _ :: rest => live_sensors rest - 1
  | _ :: rest => live_sensors rest
  end.

(** The camera manager is consistent: its index and its transform index are
    in range, it holds a sensor exactly when a sensor was selected, the
    blueprint of this sensor is the one of the selected entry, and it is the
    only live sensor. *)
Definition camera_ok (u : Ui) : Prop :=
  (0 <= _transform_index u < 2)%Z /\
  match _index u with
  | None => sensor u = None /\ live_sensors (actions u) = 0%Z
  | Some i =>
      (0 <= i < 7)%Z /\
      exists a item,
        sensor u = Some a /\
        py_getitem _sensors i = Some item /\
        blueprint a = sensor_type item /\
        live_sensors (actions u) = 1%Z
  end.


(** The blueprint id of entry [i] of the sensor table. *)
Definition sensor_type_at (i : Z) : option string :=
  option_map sensor_type (py_getitem _sensors i).

(** The event makes [parse_events] return [True]. *)
Definition is_quit (K : Keys) (mods : Mods) (event : Event) : bool :=
  match event with
  | QUIT => true
  | KEYUP key => _is_quit_shortcut K mods key
  | OtherEvent => false
  end.

(** The key codes of pygame 1.9. *)
Definition pygame_keys : Keys :=
  mkKeys 48 57 96 8 274 27 282 276 275 47 32 9 273 97 99 100 104 112 113 114
         115 119.

(** Three weather presets for the examples. *)
Definition three_presets : list (nat * string) :=
  [(0%nat, "Clear Noon"); (1%nat, "Cloudy Noon"); (2%nat, "Wet Noon")]%string.

(** ** Proof automation *)

(** Closes the cases in which the loop appends nothing. *)
Ltac no_row :=
  cbn; repeat match goal with
       | |- _ /\ _ => split
       | |- Forall _ [] => constructor
       | |- _ = _ => reflexivity
       | |- (_ <= _)%nat => lia
       | |- loop_end _ _ _ =>
           solve [ left; reflexivity
                 | right; left; split;
                   [reflexivity | unfold interrupted; eauto]
                 | right; right; split; [reflexivity | assumption] ]
       end.

(** * Properties *)

(** ** Numbers *)

Lemma Qltb_lt (a b : Q) : Qltb a b = true <-> a < b.
Proof.
  unfold Qltb. rewrite negb_true_iff. split.
  - intros H. apply Qnot_le_lt. intros Hle.
    apply Qle_bool_iff in Hle. congruence.
  - intros H. destruct (Qle_bool b a) eqn:E; [| reflexivity].
    apply Qle_bool_iff in E. exfalso. exact (Qlt_not_le _ _ H E).
Qed.

Lemma Qltb_ge (a b : Q) : Qltb a b = false <-> b <= a.
Proof.
  unfold Qltb. rewrite negb_false_iff. apply Qle_bool_iff.
Qed.

(** ** The monad *)

Lemma bind_normal {A B} (c : M A) (k : A -> M B) s a s' :
  c s = (Normal a, s') -> bind c k s = k a s'.
Proof. intros H. unfold bind. rewrite H. reflexivity. Qed.

Lemma bind_raised {A B} (c : M A) (k : A -> M B) s e s' :
  c s = (Raised e, s') -> bind c k s = (Raised e, s').
Proof. intros H. unfold bind. rewrite H. reflexivity. Qed.

Lemma bind_returned {A B} (c : M A) (k : A -> M B) s s' :
  c s = (Returned, s') -> bind c k s = (Returned, s').
Proof. intros H. unfold bind. rewrite H. reflexivity. Qed.

Lemma bind_diverged {A B} (c : M A) (k : A -> M B) s s' :
  c s = (Diverged, s') -> bind c k s = (Diverged, s').
Proof. intros H. unfold bind. rewrite H. reflexivity. Qed.

(** A computation that ends normally inside a [bind] went through a normal
    end of its first half. *)
Lemma bind_normal_inv {A B} (c : M A) (k : A -> M B) s b s' :
  bind c k s = (Normal b, s') ->
  exists a s1, c s = (Normal a, s1) /\ k a s1 = (Normal b, s').
Proof.
  unfold bind. destruct (c s) as [[a | e | |] s1]; intros H;
    try discriminate. exists a, s1. split; [reflexivity | exact H].
Qed.

(** ** [norm] *)

Lemma Qeq_bool_false_neq (a b : Q) : Qeq_bool a b = false <-> ~ a == b.
Proof.
  split.
  - intros H E. apply Qeq_bool_iff in E. congruence.
  - intros H. destruct (Qeq_bool a b) eqn:E; [| reflexivity].
    apply Qeq_bool_iff in E. contradiction.
Qed.







(** ** Initial conditions *)

Lemma drew_zero s : drew 0 s s.
Proof. unfold drew. destruct s; reflexivity. Qed.

Section InitialConditions.

Variable env : Env.

Lemma starting_pt_draws (center : Location) (s : State) :
  exists s',
    starting_pt env center s =
      (Normal (pt_of_draws center (random_draw env (randoms s))
                           (random_draw env (S (randoms s)))
                           (random_draw env (S (S (randoms s))))), s') /\
    drew 3 s s'.
Proof.
  exists (bump_randoms (bump_randoms (bump_randoms s))).
  split; reflexivity.
Qed.

(** Every transform appended by the loop is built from three consecutive
    draws, and nothing but the draw counter moves. *)
Lemma starting_pts_loop_sampled (center : Location) (num : nat) :
  forall (x0s : list Transform) (s : State),
  exists pts s',
    starting_pts_loop env center num x0s s = (Normal (x0s ++ pts), s') /\
    length pts = num /\
    drew (3 * num) s s' /\
    Forall (fun p => exists k,
              p = pt_of_draws center (random_draw env k)
                              (random_draw env (S k))
                              (random_draw env (S (S k)))) pts.
Proof.
  induction num as [| num IH]; intros x0s s.
  - exists [], s. cbn. rewrite app_nil_r.
    repeat split; auto using drew_zero.
  - destruct (starting_pt_draws center s) as [s1 [E1 D1]].
    destruct (IH (x0s ++ [pt_of_draws center (random_draw env (randoms s))
                            (random_draw env (S (randoms s)))
                            (random_draw env (S (S (randoms s))))]) s1)
      as [pts [s' [E2 [Hlen [D2 Hall]]]]].
    eexists (_ :: pts), s'. split; [| split; [| split]].
    + cbn [starting_pts_loop]. rewrite (bind_normal _ _ _ _ _ E1).
      rewrite E2. rewrite <- app_assoc. reflexivity.
    + cbn. rewrite Hlen. reflexivity.
    + unfold drew in *. rewrite D2, D1. cbn. f_equal. lia.
    + constructor; [exists (randoms s); reflexivity | exact Hall].
Qed.

Lemma generate_raises (wp : Waypoint) (num : nat) (s : State) :
  radius < lane_width wp / 2 ->
  generate_random_starting_pts env wp num s =
    (Raised (ValueError radius_template []), s).
Proof.
  intros H. unfold generate_random_starting_pts.
  apply Qltb_lt in H. rewrite H. reflexivity.
Qed.

Lemma generate_samples (wp : Waypoint) (num : nat) (s : State) :
  lane_width wp / 2 <= radius ->
  exists x0s s',
    generate_random_starting_pts env wp num s = (Normal x0s, s') /\
    length x0s = num /\
    drew (3 * num) s s' /\
    Forall (fun p => exists k,
              p = pt_of_draws (location (transform wp)) (random_draw env k)
                              (random_draw env (S k))
                              (random_draw env (S (S k)))) x0s.
Proof.
  intros H. unfold generate_random_starting_pts.
  apply Qltb_ge in H. rewrite H.
  destruct (starting_pts_loop_sampled (location (transform wp)) num [] s)
    as [pts [s' Hpts]].
  exists pts, s'. exact Hpts.
Qed.


End InitialConditions.

(** ** The concrete world of the examples *)


(** ** C1: the guard on the radius *)

(** C1, as stated, fails in both directions.  On a lane of width 3 the
    radius 1.8 exceeds half the width, yet the batch is produced; on a lane of
    width 4 it does not exceed half the width, yet the call raises. *)
Lemma radius_guard_counterexample :
  (lane_width (wp_at 0 3) / 2 < radius /\
   exists x0s s',
     generate_random_starting_pts straight_road (wp_at 0 3) 2 fresh_state
       = (Normal x0s, s') /\ length x0s = 2%nat) /\
  (radius <= lane_width (wp_at 0 4) / 2 /\
   generate_random_starting_pts straight_road (wp_at 0 4) 2 fresh_state
     = (Raised (ValueError radius_template []), fresh_state)).
Proof.
  split; split.
  - reflexivity.
  - eexists. eexists. split; vm_compute; reflexivity.
  - vm_compute. discriminate.
  - reflexivity.
Qed.

(** C1 (amended): [generate_random_starting_pts] raises the [ValueError],
    before any draw, when the radius 1.8 is strictly smaller than half the
    lane width at the waypoint; when half the lane width is at most the
    radius it does not raise and returns a batch of exactly [num]
    transforms, having drawn three random numbers per transform. *)
Theorem radius_guard (env : Env) (wp : Waypoint) (num : nat) (s : State) :
  (radius < lane_width wp / 2 ->
     generate_random_starting_pts env wp num s =
       (Raised (ValueError radius_template []), s)) /\
  (lane_width wp / 2 <= radius ->
     exists x0s s',
       generate_random_starting_pts env wp num s = (Normal x0s, s') /\
       length x0s = num /\ drew (3 * num) s s').
Proof.
  split.
  - apply generate_raises.
  - intros H. destruct (generate_samples env wp num s H)
      as [x0s [s' [E [L [D _]]]]].
    exists x0s, s'. auto.
Qed.

Lemma radius_guard_witness :
  generate_random_starting_pts straight_road (wp_at 0 4) 2 fresh_state =
    (Raised (ValueError radius_template []), fresh_state) /\
  exists x0s s',
    generate_random_starting_pts straight_road (wp_at 0 3) 2 fresh_state
      = (Normal x0s, s') /\
    length x0s = 2%nat /\ drew (3 * 2) fresh_state s'.
Proof.
  split.
  - apply (radius_guard straight_road (wp_at 0 4) 2 fresh_state).
    reflexivity.
  - apply (radius_guard straight_road (wp_at 0 3) 2 fresh_state).
    vm_compute. discriminate.
Defined.

(** ** C3: where the generated points lie *)




(** ** The lookahead window *)

Lemma chose_zero s : chose 0 s s.
Proof. unfold chose. destruct s; reflexivity. Qed.

Lemma chose_step n s s' : chose n (bump_choices s) s' -> chose (S n) s s'.
Proof.
  unfold chose, bump_choices. cbn. intros ->. f_equal. lia.
Qed.

Lemma linked_snoc env d wps a b :
  linked env d wps -> nth_error wps (length wps - 1) = Some a ->
  In b (next env a d) -> linked env d (wps ++ [b]).
Proof.
  intros HL Ha Hb i x y Hx Hy.
  destruct (Nat.lt_ge_cases (S i) (length wps)) as [Hlt | Hge].
  - rewrite nth_error_app1 in Hx by lia.
    rewrite nth_error_app1 in Hy by lia. eauto.
  - assert (Hi : S i = length wps).
    { assert (S i < length (wps ++ [b]))%nat
        by (apply nth_error_Some; congruence).
      rewrite length_app in H. cbn in H. lia. }
    rewrite nth_error_app1 in Hx by lia.
    rewrite nth_error_app2 in Hy by lia.
    replace (S i - length wps)%nat with 0%nat in Hy by lia.
    cbn in Hy. injection Hy as <-.
    replace i with (length wps - 1)%nat in Hx by lia.
    rewrite Ha in Hx. injection Hx as <-. exact Hb.
Qed.

Lemma linked_single env d w : linked env d [w].
Proof.
  intros i a b Ha Hb. destruct i; cbn in Hb; [discriminate |].
  destruct i; discriminate.
Qed.

Section Lookahead.

Variable env : Env.

Lemma random_choice_cases {A} (seq : list A) (s : State) :
  (seq = [] /\ random_choice env seq s = (Raised IndexError, s)) \/
  (exists a, In a seq /\
             random_choice env seq s = (Normal a, bump_choices s)).
Proof.
  unfold random_choice. destruct seq as [| a0 seq'].
  - left. split; [reflexivity |].
    destruct (choice_draw env (choices s) mod length (@nil A))%nat;
      reflexivity.
  - right.
    set (i := (choice_draw env (choices s) mod length (a0 :: seq'))%nat).
    assert (Hi : (i < length (a0 :: seq'))%nat).
    { apply Nat.mod_upper_bound. cbn. discriminate. }
    destruct (nth_error (a0 :: seq') i) as [a |] eqn:E.
    + exists a. split; [eapply nth_error_In; eassumption | reflexivity].
    + apply nth_error_None in E. lia.
Qed.

Lemma py_last_snoc {A} (l : list A) (a : A) (s : State) :
  py_last (l ++ [a]) s = (Normal a, s).
Proof. unfold py_last. rewrite rev_app_distr. reflexivity. Qed.

Lemma nth_error_snoc_last {A} (l : list A) (a : A) :
  nth_error (l ++ [a]) (length (l ++ [a]) - 1) = Some a.
Proof.
  rewrite length_app. cbn. rewrite nth_error_app2 by lia.
  replace (length l + 1 - 1 - length l)%nat with 0%nat by lia. reflexivity.
Qed.

(** What the window loop does from a non empty window [pre ++ [w]]: either
    it appends [horizon] waypoints, each a successor of the one before it,
    or it meets a waypoint without successors and raises [IndexError].  It
    touches nothing but the counter of [random.choice]. *)
Lemma future_wps_loop_cases (d : Q) (horizon : nat) :
  forall (pre : list Waypoint) (w : Waypoint) (s : State),
    linked env d (pre ++ [w]) ->
    exists k s', chose k s s' /\
      ((exists extra,
          future_wps_loop env d horizon (pre ++ [w]) s
            = (Normal (pre ++ [w] ++ extra), s') /\
          length extra = horizon /\ k = horizon /\
          linked env d (pre ++ [w] ++ extra)) \/
       (future_wps_loop env d horizon (pre ++ [w]) s
          = (Raised IndexError, s') /\
        (k < horizon)%nat /\ exists v, next env v d = [])).
Proof.
  induction horizon as [| h IH]; intros pre w s HL.
  - exists 0%nat, s. split; [apply chose_zero |]. left. exists [].
    cbn. rewrite ?app_nil_r. auto.
  - cbn [future_wps_loop].
    rewrite (bind_normal _ _ _ _ _ (py_last_snoc pre w s)).
    destruct (random_choice_cases (next env w d) s)
      as [[Hnil E] | [w' [Hin E]]].
    + exists 0%nat, s. split; [apply chose_zero |]. right.
      rewrite (bind_raised _ _ _ _ _ E).
      split; [reflexivity | split; [lia | exists w; exact Hnil]].
    + rewrite (bind_normal _ _ _ _ _ E).
      assert (HL' : linked env d ((pre ++ [w]) ++ [w'])).
      { eapply linked_snoc; eauto using nth_error_snoc_last. }
      destruct (IH (pre ++ [w]) w' (bump_choices s) HL')
        as [k [s' [Hk Hcases]]].
      exists (S k), s'. split; [apply chose_step; exact Hk |].
      destruct Hcases as [[extra [E' [Hlen [Hkh HL'']]]] | [E' [Hlt Hv]]].
      * left. exists (w' :: extra).
        rewrite E'. rewrite <- !app_assoc in *. cbn in *.
        repeat split; auto; lia.
      * right. rewrite E'. repeat split; auto; lia.
Qed.

End Lookahead.

(** ** One pass through the body of the [while] loop *)

Section LoopBody.

Variable env : Env.

Lemma loop_body_end (d : Q) (horizon : nat) (s : State) :
  exists o s', loop_body env d horizon s = (o, s') /\
               pass_end env d horizon s o s'.
Proof.
  unfold loop_body.
  cbv beta iota delta [bind parse_events World_tick].
  destruct (quit_event env (polls s)) eqn:Hq.
  { eexists. eexists. split; [reflexivity | constructor; exact Hq]. }
  destruct (hero_count env (world_ticks (bump_polls s)) <? 1)%nat eqn:Hh;
    cbn [negb].
  { eexists. eexists. split; [reflexivity |].
    apply pass_no_hero; [exact Hq |]. apply Nat.ltb_lt in Hh. exact Hh. }
  apply Nat.ltb_ge in Hh. cbn [world_ticks bump_polls] in Hh.
  set (s3 := advance_frame env (bump_world_ticks (bump_polls s))).
  cbv beta iota delta [wait_for_tick get_transform get_velocity get_control].
  fold s3.
  set (cur_wp := get_waypoint env
                   (location (vehicle_transform env (frame_number s3)))).
  destruct (future_wps_loop_cases env d horizon [] cur_wp s3
              (linked_single env d cur_wp))
    as [k [s4 [Hk [[extra [E [Hlen [Hkh HL]]]] | [E [Hlt Hv]]]]]];
    cbn [app] in E; rewrite E.
  - eexists. eexists. split; [reflexivity |].
    unfold chose in Hk. subst s4 k. cbn.
    apply (pass_recorded env d horizon s extra); auto.
  - eexists. eexists. split; [reflexivity |].
    unfold chose in Hk. subst s4. cbn.
    apply (pass_dead_end env d horizon s k); auto.
Qed.


End LoopBody.

(** ** The layout of a row *)

Lemma flatten_future_wps_np_length (w : Waypoint) (l : list Waypoint) :
  length (flatten (future_wps_np w l)) = (2 * length l)%nat.
Proof.
  unfold flatten, future_wps_np, np_sub_rows.
  induction l as [| a l IH]; [reflexivity |].
  cbn [map concat length]. rewrite length_app, IH. cbn. lia.
Qed.

Section RowLayout.

Variable env : Env.

(** The row, field by field.  The lookahead part starts with the pair of
    [cur_wp] itself. *)
Lemma recorded_row_fields (s : State) (extra : list Waypoint) :
  let control := vehicle_control env (pre_frame env s) in
  let cur_loc := vehicle_transform env (pre_frame env s) in
  let cur_vel := vehicle_velocity env (pre_frame env s) in
  let next_loc := vehicle_transform env (post_frame env s) in
  let next_vel := vehicle_velocity env (post_frame env s) in
  let w := location (transform (pre_wp env s)) in
  recorded_row env s extra =
    [throttle control; steer control; brake control] ++
    transform_to_arr cur_loc ++
    [vec_x cur_vel; vec_y cur_vel; vec_z cur_vel] ++
    transform_to_arr next_loc ++
    [vec_x next_vel; vec_y next_vel; vec_z next_vel] ++
    [loc_x (location cur_loc) - loc_x w;
     loc_y (location cur_loc) - loc_y w] ++
    ([loc_x w - loc_x w; loc_y w - loc_y w] ++
     flatten (future_wps_np (pre_wp env s) extra)) ++
    [loc_x (location next_loc) - loc_x w;
     loc_y (location next_loc) - loc_y w].
Proof.
  cbv zeta. unfold recorded_row, transition_row, hstack.
  cbn [concat]. rewrite app_nil_r. reflexivity.
Qed.

Lemma recorded_row_length (s : State) (extra : list Waypoint) :
  length (recorded_row env s extra) = row_width (length extra).
Proof.
  rewrite recorded_row_fields. cbv zeta. unfold row_width.
  rewrite !length_app, flatten_future_wps_np_length. cbn. lia.
Qed.

(** Positions in a row: the offsets of the pre-state at 21 and 22, the first
    lookahead pair at 23 and 24, the offsets of the post-state in the last
    two places. *)
Lemma recorded_row_nth (s : State) (extra : list Waypoint) :
  let cur_loc := location (vehicle_transform env (pre_frame env s)) in
  let next_loc := location (vehicle_transform env (post_frame env s)) in
  let w := location (transform (pre_wp env s)) in
  let row := recorded_row env s extra in
  nth_error row 21 = Some (loc_x cur_loc - loc_x w) /\
  nth_error row 22 = Some (loc_y cur_loc - loc_y w) /\
  nth_error row 23 = Some (loc_x w - loc_x w) /\
  nth_error row 24 = Some (loc_y w - loc_y w) /\
  nth_error row (23 + 2 * (length extra + 1)) =
    Some (loc_x next_loc - loc_x w) /\
  nth_error row (24 + 2 * (length extra + 1)) =
    Some (loc_y next_loc - loc_y w).
Proof.
  cbv zeta. rewrite recorded_row_fields. cbv zeta.
  repeat split; try reflexivity.
  - cbn [transform_to_arr app].
    replace (23 + 2 * (length extra + 1))%nat
      with (25 + 2 * length extra)%nat by lia.
    cbn [Nat.add nth_error].
    rewrite nth_error_app2; rewrite flatten_future_wps_np_length; [| lia].
    replace (2 * length extra - 2 * length extra)%nat with 0%nat by lia.
    reflexivity.
  - cbn [transform_to_arr app].
    replace (24 + 2 * (length extra + 1))%nat
      with (25 + (2 * length extra + 1))%nat by lia.
    cbn [Nat.add nth_error].
    rewrite nth_error_app2; rewrite flatten_future_wps_np_length; [| lia].
    replace (2 * length extra + 1 - 2 * length extra)%nat with 1%nat by lia.
    reflexivity.
Qed.

End RowLayout.

(** ** The [while] loop of an episode *)

Section Episode.

Variable env : Env.
Variable d : Q.
Variable horizon : nat.

Lemma is_recorded_width (row : list Q) :
  is_recorded env d horizon row -> length row = row_width horizon.
Proof.
  intros [s [extra [Hlen [_ ->]]]]. rewrite recorded_row_length, Hlen.
  reflexivity.
Qed.

(** With as many passes allowed as frames are left the loop never runs out
    of passes: it ends normally, by [return], or on a dead end of the road.
    It only appends rows recorded by its passes, and every row costs two
    frames. *)
Lemma while_enough_fuel (budget init : Z) :
  forall (fuel : nat) (s : State),
    (frames_left budget init s <= fuel)%nat ->
    exists o s' rows,
      while_frames fuel budget init (loop_body env d horizon) s = (o, s') /\
      loop_end env d o /\
      outfile s' = outfile s ++ rows /\
      Forall (is_recorded env d horizon) rows /\
      (2 * length rows <= frames_left budget init s + 1)%nat.
Proof.
  unfold frames_left.
  induction fuel as [| fuel IH]; intros s Hfuel; cbn [while_frames];
    destruct (Z.ltb_spec (frame_number s - init) budget) as [Hin | Hout];
    try lia.
  - exists (Normal tt), s, []. rewrite app_nil_r. no_row.
  - destruct (loop_body_end env d horizon s) as [o [s1 [E P]]].
    unfold bind. rewrite E. inversion P; subst.
    + exists Returned, (bump_polls s), []. rewrite app_nil_r. no_row.
    + exists Returned, (bump_world_ticks (bump_polls s)), [].
      rewrite app_nil_r. no_row.
    + eexists (Raised IndexError), _, []. rewrite app_nil_r. no_row.
    + match goal with
      | |- context [while_frames fuel budget init _ ?s1] =>
          destruct (IH s1) as [o [s' [rows [E' [Ho [Hf [Hw Hn]]]]]]]
      end.
      { cbn. unfold post_frame, pre_frame. lia. }
      exists o, s', (recorded_row env s extra :: rows).
      split; [exact E' |]. split; [exact Ho |].
      split; [rewrite Hf; cbn; rewrite <- app_assoc; reflexivity |].
      split.
      * constructor; [| exact Hw]. exists s, extra. auto.
      * cbn [frame_number length] in *. unfold post_frame, pre_frame in Hn.
        lia.
  - exists (Normal tt), s, []. rewrite app_nil_r. no_row.
Qed.


End Episode.

(** ** C2: rows per episode *)

Section EpisodeRows.

Variable env : Env.

Lemma run_episode_while (d : Q) (horizon : nat) (budget : Z)
    (x0 : Transform) (s : State) :
  run_episode env d horizon budget x0 s =
    while_frames (Z.to_nat budget) budget (frame_number (installed env x0 s))
                 (loop_body env d horizon) (installed env x0 s).
Proof. reflexivity. Qed.

Lemma frames_left_installed (budget : Z) (x0 : Transform) (s : State) :
  frames_left budget (frame_number (installed env x0 s)) (installed env x0 s)
    = Z.to_nat budget.
Proof. unfold frames_left. f_equal. lia. Qed.

(** An episode with any frame budget. *)
Lemma run_episode_rows (d : Q) (horizon : nat) (budget : Z)
    (x0 : Transform) (s : State) :
  exists o s' rows,
    run_episode env d horizon budget x0 s = (o, s') /\
    loop_end env d o /\
    outfile s' = outfile s ++ rows /\
    Forall (is_recorded env d horizon) rows /\
    (2 * length rows <= Z.to_nat budget + 1)%nat.
Proof.
  rewrite run_episode_while.
  destruct (while_enough_fuel env d horizon budget
              (frame_number (installed env x0 s)) (Z.to_nat budget)
              (installed env x0 s))
    as [o [s' [rows [E [Ho [Hf [Hw Hn]]]]]]].
  { rewrite frames_left_installed. lia. }
  rewrite frames_left_installed in Hn.
  exists o, s', rows. auto.
Qed.

Lemma run_episode_interrupted (d : Q) (horizon : nat) (budget : Z)
    (x0 : Transform) (s : State) :
  (0 < budget)%Z ->
  quit_event env (polls s) = true \/
  (hero_count env (world_ticks s) < 1)%nat ->
  exists s', run_episode env d horizon budget x0 s = (Returned, s') /\
             outfile s' = outfile s.
Proof.
  intros Hb Hint. rewrite run_episode_while.
  destruct (Z.to_nat budget) as [| fuel] eqn:Hfuel; [lia |].
  cbn [while_frames].
  replace (frame_number (installed env x0 s) - frame_number (installed env x0 s)
             <? budget)%Z with true by (symmetry; apply Z.ltb_lt; lia).
  destruct (loop_body_end env d horizon (installed env x0 s))
    as [o [s1 [E P]]].
  unfold bind. rewrite E.
  inversion P; subst;
    change (polls (installed env x0 s)) with (polls s) in *;
    change (world_ticks (installed env x0 s)) with (world_ticks s) in *.
  - eexists. split; reflexivity.
  - eexists. split; reflexivity.
  - destruct Hint; [congruence | lia].
  - destruct Hint; [congruence | lia].
Qed.

End EpisodeRows.




(** ** What the whole loop appends to the file *)

Lemma appends_silent (P : list Q -> Prop) {A} (c : M A) :
  (forall s, outfile (snd (c s)) = outfile s) -> appends_rows P c.
Proof.
  intros H s. exists []. rewrite app_nil_r. split; [apply H | constructor].
Qed.

Lemma appends_bind (P : list Q -> Prop) {A B} (c : M A) (k : A -> M B) :
  appends_rows P c -> (forall a, appends_rows P (k a)) ->
  appends_rows P (bind c k).
Proof.
  intros Hc Hk s. destruct (Hc s) as [rows1 [E1 F1]].
  unfold bind. destruct (c s) as [[a | e | |] s1]; cbn [snd] in *;
    try (exists rows1; split; assumption).
  destruct (Hk a s1) as [rows2 [E2 F2]].
  exists (rows1 ++ rows2). rewrite E2, E1, app_assoc.
  split; [reflexivity | apply Forall_app; split; assumption].
Qed.

Section WholeLoop.

Variable env : Env.
Variable d : Q.
Variable horizon : nat.
Variable budget : Z.

Lemma run_episode_appends (x0 : Transform) :
  appends_rows (is_recorded env d horizon)
               (run_episode env d horizon budget x0).
Proof.
  intros s.
  destruct (run_episode_rows env d horizon budget x0 s)
    as [o [s' [rows [E [_ [Hf [Hw _]]]]]]].
  exists rows. rewrite E. split; assumption.
Qed.

Lemma episodes_appends (x0s : list Transform) :
  appends_rows (is_recorded env d horizon) (episodes env d horizon budget x0s).
Proof.
  induction x0s as [| x0 rest IH]; cbn [episodes].
  - apply appends_silent. reflexivity.
  - apply appends_bind; [apply run_episode_appends | intros _; exact IH].
Qed.

Lemma generate_silent (wp : Waypoint) (num : nat) (s : State) :
  outfile (snd (generate_random_starting_pts env wp num s)) = outfile s.
Proof.
  destruct (Qlt_le_dec radius (lane_width wp / 2)) as [Hlt | Hle].
  - rewrite (generate_raises env wp num s Hlt). reflexivity.
  - destruct (generate_samples env wp num s Hle)
      as [x0s [s' [E [_ [D _]]]]].
    rewrite E. unfold drew in D. subst s'. reflexivity.
Qed.

Lemma collect_around_appends (num_init_pt : nat) (wp : Waypoint) :
  appends_rows (is_recorded env d horizon)
               (collect_around env d num_init_pt horizon budget wp).
Proof.
  unfold collect_around. apply appends_bind.
  - apply appends_silent. apply generate_silent.
  - intros x0s. apply episodes_appends.
Qed.

Lemma py_index_silent {A} (seq : list A) (i : nat) (s : State) :
  outfile (snd (py_index seq i s)) = outfile s.
Proof. unfold py_index. destruct (nth_error seq i); reflexivity. Qed.

Lemma random_choice_silent {A} (seq : list A) (s : State) :
  outfile (snd (random_choice env seq s)) = outfile s.
Proof.
  destruct (random_choice_cases env seq s) as [[_ E] | [a [_ E]]];
    rewrite E; reflexivity.
Qed.

Lemma ref_path_loop_appends (per_wp : Waypoint -> M unit) (num_wp : nat) :
  (forall wp, appends_rows (is_recorded env d horizon) (per_wp wp)) ->
  forall i wps,
    appends_rows (is_recorded env d horizon)
                 (ref_path_loop env per_wp d num_wp i wps).
Proof.
  intros Hper. induction num_wp as [| n IH]; intros i wps;
    cbn [ref_path_loop].
  - apply appends_silent. reflexivity.
  - apply appends_bind;
      [apply appends_silent; apply py_index_silent | intros prev].
    apply appends_bind;
      [apply appends_silent; apply random_choice_silent | intros wp].
    apply appends_bind; [apply Hper | intros _; apply IH].
Qed.

(** Every row that [game_loop] appends is the row of a pass of the [while]
    loop whose window loop succeeded. *)
Lemma game_loop_with_appends (start : Location) (num_wp num_init_pt : nat) :
  appends_rows (is_recorded env d horizon)
    (game_loop_with env start d num_wp num_init_pt horizon budget).
Proof.
  unfold game_loop_with. apply ref_path_loop_appends.
  intros wp. apply collect_around_appends.
Qed.

(** A pass that ends normally has appended the row of its entry state. *)
Lemma loop_body_normal_inv (s s' : State) :
  loop_body env d horizon s = (Normal tt, s') ->
  exists extra,
    length extra = horizon /\ linked env d (pre_wp env s :: extra) /\
    outfile s' = outfile s ++ [recorded_row env s extra] /\
    frame_number s' = post_frame env s.
Proof.
  intros E. destruct (loop_body_end env d horizon s) as [o [s1 [E1 P1]]].
  rewrite E in E1. injection E1 as <- <-.
  inversion P1; subst. exists extra. cbn. auto.
Qed.

End WholeLoop.

(** ** Properties of the recorded rows *)

Section Rows.

Variable env : Env.
Variable d : Q.
Variable horizon : nat.

(** A property [R s row] of the row recorded by a pass entered in state [s]
    holds of the row appended by every pass that ends normally, and of every
    row that the whole loop appends. *)
Lemma every_recorded_row (R : State -> list Q -> Prop) :
  (forall s extra,
     length extra = horizon -> linked env d (pre_wp env s :: extra) ->
     R s (recorded_row env s extra)) ->
  (forall s s',
     loop_body env d horizon s = (Normal tt, s') ->
     exists row, outfile s' = outfile s ++ [row] /\ R s row) /\
  (forall start num_wp num_init_pt budget s,
     exists rows,
       outfile (snd (game_loop_with env start d num_wp num_init_pt horizon
                                    budget s)) = outfile s ++ rows /\
       Forall (fun row => exists s0, R s0 row) rows).
Proof.
  intros HR. split.
  - intros s s' E.
    destruct (loop_body_normal_inv env d horizon s s' E)
      as [extra [Hlen [HL [Hf _]]]].
    exists (recorded_row env s extra). auto.
  - intros start num_wp num_init_pt budget s.
    destruct (game_loop_with_appends env d horizon budget start num_wp
                num_init_pt s) as [rows [Hf Hall]].
    exists rows. split; [exact Hf |].
    eapply Forall_impl; [| exact Hall].
    intros row [s0 [extra [Hlen [HL ->]]]]. exists s0. auto.
Qed.


Lemma recorded_row_relative (s : State) (extra : list Waypoint) :
  length extra = horizon -> linked env d (pre_wp env s :: extra) ->
  relative_to_pre_waypoint env d horizon s (recorded_row env s extra).
Proof.
  intros Hlen HL. unfold relative_to_pre_waypoint. cbv zeta.
  split; [unfold post_frame; lia |].
  eexists (_ :: _ :: _ :: _ :: _ :: _ :: _ :: _ :: _ :: _ :: _ :: _ :: _ ::
           _ :: _ :: _ :: _ :: _ :: _ :: _ :: [_]), extra.
  split; [reflexivity |]. split; [exact Hlen |]. split; [exact HL |].
  rewrite recorded_row_fields. reflexivity.
Qed.

Lemma recorded_row_round_trip (s : State) (extra : list Waypoint) :
  rel_pre_round_trip env s (recorded_row env s extra).
Proof.
  unfold rel_pre_round_trip. cbv zeta.
  destruct (recorded_row_nth env s extra) as [H21 [H22 _]].
  unfold pre_wp in H21, H22.
  do 2 eexists. split; [exact H21 |]. split; [exact H22 |].
  split; ring.
Qed.

Lemma recorded_row_starts_at_zero (s : State) (extra : list Waypoint) :
  length extra = horizon ->
  lookahead_starts_at_zero horizon (recorded_row env s extra).
Proof.
  intros Hlen. unfold lookahead_starts_at_zero.
  eexists (_ :: _ :: _ :: _ :: _ :: _ :: _ :: _ :: _ :: _ :: _ :: _ :: _ ::
           _ :: _ :: _ :: _ :: _ :: _ :: _ :: _ :: _ :: [_]).
  do 4 eexists. split; [rewrite recorded_row_fields; reflexivity |].
  split; [reflexivity |].
  split; [rewrite flatten_future_wps_np_length, Hlen; reflexivity |].
  split; [reflexivity |]. split; ring.
Qed.

End Rows.

(** ** C5: layout and width of the rows *)



(** ** C6: [rel_post] is relative to the pre-state waypoint *)

(** C6: in the row of every pass that ends normally, and in every row the
    whole loop appends, the last two entries are the x and y of the
    post-state location minus those of [cur_wp], the waypoint nearest to the
    pre-state location, which is also the waypoint subtracted in [rel_pre]
    and the first waypoint of the lookahead window; the post-state is read at
    a later frame than the pre-state. *)
Theorem rel_post_against_pre_waypoint (env : Env) (d : Q) (h : nat) :
  (forall s s',
     loop_body env d h s = (Normal tt, s') ->
     exists row, outfile s' = outfile s ++ [row] /\
                 relative_to_pre_waypoint env d h s row) /\
  (forall start num_wp num_init_pt budget s,
     exists rows,
       outfile (snd (game_loop_with env start d num_wp num_init_pt h
                                    budget s)) = outfile s ++ rows /\
       Forall (fun row => exists s0, relative_to_pre_waypoint env d h s0 row)
              rows).
Proof.
  apply every_recorded_row. intros s extra Hlen HL.
  apply recorded_row_relative; assumption.
Qed.

(** On the straight road the hero crosses from the waypoint at 1 to the
    waypoint at 2 during the pass, and the row still ends with the offset
    from the waypoint at 1. *)
Lemma rel_post_against_pre_waypoint_witness :
  (exists row,
     outfile (snd (loop_body straight_road sampling_radius 2 fresh_state))
       = outfile fresh_state ++ [row] /\
     relative_to_pre_waypoint straight_road sampling_radius 2 fresh_state
                              row) /\
  get_waypoint straight_road
    (location (vehicle_transform straight_road
                 (post_frame straight_road fresh_state)))
  <> get_waypoint straight_road
       (location (vehicle_transform straight_road
                    (pre_frame straight_road fresh_state))).
Proof.
  split.
  - exact (proj1 (rel_post_against_pre_waypoint straight_road
                    sampling_radius 2) fresh_state _ eq_refl).
  - vm_compute. discriminate.
Defined.

(** ** C7: round trip of the relative frame *)

(** C7: in the row of every pass that ends normally, and in every row the
    whole loop appends, the two entries of [rel_pre] plus the x and y of
    [cur_wp]'s location are equal to the x and y of the pre-state location. *)
Theorem rel_pre_plus_waypoint (env : Env) (d : Q) (h : nat) :
  (forall s s',
     loop_body env d h s = (Normal tt, s') ->
     exists row, outfile s' = outfile s ++ [row] /\
                 rel_pre_round_trip env s row) /\
  (forall start num_wp num_init_pt budget s,
     exists rows,
       outfile (snd (game_loop_with env start d num_wp num_init_pt h
                                    budget s)) = outfile s ++ rows /\
       Forall (fun row => exists s0, rel_pre_round_trip env s0 row) rows).
Proof.
  apply every_recorded_row. intros s extra _ _.
  apply recorded_row_round_trip.
Qed.

Lemma rel_pre_plus_waypoint_witness :
  exists row,
    outfile (snd (loop_body straight_road sampling_radius 2 fresh_state))
      = outfile fresh_state ++ [row] /\
    rel_pre_round_trip straight_road fresh_state row.
Proof.
  exact (proj1 (rel_pre_plus_waypoint straight_road sampling_radius 2)
               fresh_state _ eq_refl).
Defined.

(** ** C10: the lookahead starts at the origin of the relative frame *)

(** C10: in the row of every pass that ends normally, and in every row the
    whole loop appends, the lookahead field, which follows the first
    [3 + 6 + 3 + 6 + 3 + 2] entries, starts with a pair of zeros: the window
    starts with [cur_wp], whose offset from itself is null. *)
Theorem lookahead_first_pair_zero (env : Env) (d : Q) (h : nat) :
  (forall s s',
     loop_body env d h s = (Normal tt, s') ->
     exists row, outfile s' = outfile s ++ [row] /\
                 lookahead_starts_at_zero h row) /\
  (forall start num_wp num_init_pt budget s,
     exists rows,
       outfile (snd (game_loop_with env start d num_wp num_init_pt h
                                    budget s)) = outfile s ++ rows /\
       Forall (lookahead_starts_at_zero h) rows).
Proof.
  destruct (every_recorded_row env d h
              (fun _ row => lookahead_starts_at_zero h row)) as [H1 H2].
  { intros s extra Hlen _. apply recorded_row_starts_at_zero. exact Hlen. }
  split; [exact H1 |].
  intros start num_wp num_init_pt budget s.
  destruct (H2 start num_wp num_init_pt budget s) as [rows [Hf Hall]].
  exists rows. split; [exact Hf |].
  eapply Forall_impl; [| exact Hall]. intros row [_ H]. exact H.
Qed.

Lemma lookahead_first_pair_zero_witness :
  exists row,
    outfile (snd (loop_body straight_road sampling_radius 2 fresh_state))
      = outfile fresh_state ++ [row] /\
    lookahead_starts_at_zero 2 row.
Proof.
  exact (proj1 (lookahead_first_pair_zero straight_road sampling_radius 2)
               fresh_state _ eq_refl).
Defined.

(** ** C9: the recorder is a function of the captured tuple *)

Section CsvText.

Variable repr : Q -> string.

Lemma string_app_assoc (a b c : string) :
  ((a ++ b) ++ c = a ++ (b ++ c))%string.
Proof.
  induction a as [| ch a IH]; cbn; [reflexivity | rewrite IH; reflexivity].
Qed.

Lemma string_app_empty (a : string) : (a ++ "" = a)%string.
Proof.
  induction a as [| ch a IH]; cbn; [reflexivity | rewrite IH; reflexivity].
Qed.

Lemma csv_text_snoc (rows : list (list Q)) (row : list Q) :
  csv_text repr (rows ++ [row])
    = (csv_text repr rows ++ csv_line repr row)%string.
Proof.
  induction rows as [| r rows IH]; cbn [csv_text app].
  - rewrite string_app_empty. reflexivity.
  - rewrite IH, string_app_assoc. reflexivity.
Qed.

End CsvText.

(** C9: for one captured tuple (control, pre-pose, pre-velocity, post-pose,
    post-velocity, [cur_wp], lookahead window) the recorder ends normally
    from every state and appends the same row, [transition_row] of the
    tuple, whatever the file already holds and whatever the counters are;
    the text added to the file is the same line in both runs, and nothing
    but the file changes. *)
Theorem record_transition_deterministic
    (control : VehicleControl) (cur_loc : Transform) (cur_vel : Vector3D)
    (next_loc : Transform) (next_vel : Vector3D) (cur_wp : Waypoint)
    (future_wps : list Waypoint) (s1 s2 : State) :
  let run := record_transition control cur_loc cur_vel next_loc next_vel
               cur_wp (future_wps_np cur_wp future_wps) in
  let row := transition_row control cur_loc cur_vel next_loc next_vel
               cur_wp (future_wps_np cur_wp future_wps) in
  run s1 = (Normal tt, append_row row s1) /\
  run s2 = (Normal tt, append_row row s2) /\
  forall repr : Q -> string,
    csv_text repr (outfile (snd (run s1)))
      = (csv_text repr (outfile s1) ++ csv_line repr row)%string /\
    csv_text repr (outfile (snd (run s2)))
      = (csv_text repr (outfile s2) ++ csv_line repr row)%string.
Proof.
  cbv zeta. split; [reflexivity |]. split; [reflexivity |].
  intros repr. unfold record_transition, writerow. cbn [snd append_row outfile].
  rewrite !csv_text_snoc. split; reflexivity.
Qed.

(** ** C4: the reference path *)

Section ReferencePath.

Variable env : Env.
Variable per_wp : Waypoint -> M unit.
Variable d : Q.

(** If the loop, entered with [i] passes done and [S i] waypoints, ends
    normally, it has appended one successor per remaining pass. *)
Lemma ref_path_loop_normal (n : nat) :
  forall i wps s res s',
    length wps = S i -> linked env d wps ->
    ref_path_loop env per_wp d n i wps s = (Normal res, s') ->
    length res = (S i + n)%nat /\ linked env d res /\
    firstn (S i) res = wps.
Proof.
  induction n as [| n IH]; intros i wps s res s' Hlen HL E;
    cbn [ref_path_loop] in E.
  - injection E as <- <-. rewrite <- Hlen, firstn_all.
    repeat split; [lia | exact HL].
  - apply bind_normal_inv in E. destruct E as [prev [s1 [E1 E]]].
    apply bind_normal_inv in E. destruct E as [wp [s2 [E2 E]]].
    apply bind_normal_inv in E. destruct E as [[] [s3 [E3 E]]].
    unfold py_index in E1.
    destruct (nth_error wps i) as [p |] eqn:Hp; [| discriminate].
    injection E1 as -> <-.
    destruct (random_choice_cases env (next env prev d) s)
      as [[_ Ec] | [a [Hin Ec]]]; rewrite Ec in E2; [discriminate |].
    injection E2 as -> <-.
    assert (HL' : linked env d (wps ++ [wp])).
    { eapply linked_snoc; eauto.
      replace (length wps - 1)%nat with i by lia. exact Hp. }
    destruct (IH (S i) (wps ++ [wp]) s3 res s') as [Hl [Hk Hf]]; auto.
    { rewrite length_app. cbn. lia. }
    split; [lia |]. split; [exact Hk |].
    assert (Hf' : firstn (S i) (firstn (S (S i)) res)
                  = firstn (S i) (wps ++ [wp])) by (rewrite Hf; reflexivity).
    rewrite firstn_firstn in Hf'.
    replace (Nat.min (S i) (S (S i))) with (S i) in Hf' by lia.
    rewrite Hf'. rewrite <- Hlen, firstn_app, firstn_all, Nat.sub_diag.
    cbn. apply app_nil_r.
Qed.

(** On a road without dead ends the loop ends normally as soon as the work
    done with each waypoint does. *)
Lemma ref_path_loop_total (n : nat) :
  (forall w, next env w d <> []) ->
  (forall w s, exists s', per_wp w s = (Normal tt, s')) ->
  forall i wps s,
    length wps = S i ->
    exists res s', ref_path_loop env per_wp d n i wps s = (Normal res, s').
Proof.
  intros Hnext Hper.
  induction n as [| n IH]; intros i wps s Hlen; cbn [ref_path_loop].
  - exists wps, s. reflexivity.
  - destruct (nth_error wps i) as [prev |] eqn:Hp.
    2:{ apply nth_error_None in Hp. lia. }
    unfold py_index. rewrite Hp.
    rewrite (bind_normal _ _ _ prev s) by reflexivity.
    destruct (random_choice_cases env (next env prev d) s)
      as [[Hnil _] | [wp [_ Ec]]]; [elim (Hnext _ Hnil) |].
    rewrite (bind_normal _ _ _ _ _ Ec).
    destruct (Hper wp (bump_choices s)) as [s1 E1].
    rewrite (bind_normal _ _ _ _ _ E1).
    apply IH. rewrite length_app. cbn. lia.
Qed.

(** A waypoint without successors stops the loop with [IndexError]. *)
Lemma ref_path_loop_dead_end (n i : nat) (wps : list Waypoint)
    (prev : Waypoint) (s : State) :
  nth_error wps i = Some prev -> next env prev d = [] ->
  ref_path_loop env per_wp d (S n) i wps s = (Raised IndexError, s).
Proof.
  intros Hp Hnil. cbn [ref_path_loop]. unfold py_index. rewrite Hp.
  rewrite (bind_normal _ _ _ prev s) by reflexivity.
  destruct (random_choice_cases env (next env prev d) s)
    as [[_ Ec] | [wp [Hin _]]].
  - apply bind_raised. exact Ec.
  - rewrite Hnil in Hin. destruct Hin.
Qed.

End ReferencePath.

(** C4: whatever is done with each reference waypoint, when the sampling
    loop of [N] passes started from [org] ends normally its list holds
    exactly [N + 1] waypoints, starts with [org], and each waypoint is one of
    the successors, at distance [d], of the one before it.  On a road without
    dead ends the loop does end normally as soon as the work done with each
    waypoint does.  A waypoint without successor never shortens the list: the
    pass that meets it raises [IndexError]. *)
Theorem reference_path (env : Env) (per_wp : Waypoint -> M unit) (d : Q)
    (N : nat) (org : Waypoint) (s : State) :
  (forall wps s',
     ref_path_loop env per_wp d N 0 [org] s = (Normal wps, s') ->
     length wps = (N + 1)%nat /\ nth_error wps 0 = Some org /\
     linked env d wps) /\
  ((forall w, next env w d <> []) ->
   (forall w s0, exists s1, per_wp w s0 = (Normal tt, s1)) ->
   exists wps s',
     ref_path_loop env per_wp d N 0 [org] s = (Normal wps, s')) /\
  (forall n i wps prev s0,
     nth_error wps i = Some prev -> next env prev d = [] ->
     ref_path_loop env per_wp d (S n) i wps s0 = (Raised IndexError, s0)).
Proof.
  split; [| split].
  - intros wps s' E.
    destruct (ref_path_loop_normal env per_wp d N 0 [org] s wps s'
                eq_refl (linked_single env d org) E) as [Hl [HL Hf]].
    split; [lia |]. split; [| exact HL].
    destruct wps as [| w wps]; [discriminate |].
    cbn in Hf. injection Hf as ->. reflexivity.
  - intros Hnext Hper.
    apply ref_path_loop_total; auto.
  - intros n i wps prev s0. apply ref_path_loop_dead_end.
Qed.

Lemma reference_path_witness :
  exists wps s',
    ref_path_loop straight_road (fun _ => ret tt) sampling_radius 3 0
                  [wp_at 0 3] fresh_state = (Normal wps, s') /\
    length wps = (3 + 1)%nat /\ nth_error wps 0 = Some (wp_at 0 3) /\
    linked straight_road sampling_radius wps.
Proof.
  destruct (reference_path straight_road (fun _ => ret tt) sampling_radius 3
              (wp_at 0 3) fresh_state) as [Hshape [Htotal _]].
  destruct Htotal as [wps [s' E]].
  - intros w. cbn. discriminate.
  - intros w s0. exists s0. reflexivity.
  - exists wps, s'. split; [exact E |]. exact (Hshape wps s' E).
Defined.

(** * Further properties *)

(** ** The initial velocity *)



(** ** The whole loop, end to end *)

Section EndToEnd.

Variable env : Env.
Variable d : Q.
Variable h : nat.





End EndToEnd.






(** X3: when a quit event or the loss of the hero is seen at the first pass
    of the first episode, the whole loop returns at once: no row is written,
    although every waypoint but the first and every other episode are still
    to come. *)
Theorem game_loop_returns_at_once (env : Env) (start : Location) (d : Q)
    (n_wp n_pt h : nat) (budget : Z) (s : State) :
  (0 < budget)%Z ->
  quit_event env (polls s) = true \/
  (hero_count env (world_ticks s) < 1)%nat ->
  next env (get_waypoint env start) d <> [] ->
  (forall w, In w (next env (get_waypoint env start) d) -> narrow w) ->
  exists s',
    game_loop_with env start d (S n_wp) (S n_pt) h budget s
      = (Returned, s') /\
    outfile s' = outfile s.
Proof.
  intros Hb Hint Hnext Hnarrow. unfold game_loop_with.
  cbn [ref_path_loop]. unfold py_index. cbn [nth_error].
  rewrite (bind_normal _ _ _ (get_waypoint env start) s) by reflexivity.
  destruct (random_choice_cases env (next env (get_waypoint env start) d) s)
    as [[Hnil _] | [wp [Hin Ec]]]; [contradiction |].
  rewrite (bind_normal _ _ _ _ _ Ec).
  destruct (generate_samples env wp (S n_pt) (bump_choices s)
              (Hnarrow wp Hin)) as [x0s [s1 [E1 [L1 [D1 _]]]]].
  destruct x0s as [| x0 rest]; [discriminate |].
  assert (Hint1 : quit_event env (polls s1) = true \/
                  (hero_count env (world_ticks s1) < 1)%nat).
  { unfold drew in D1. subst s1. exact Hint. }
  destruct (run_episode_interrupted env d h budget x0 s1 Hb Hint1)
    as [s' [E2 F2]].
  exists s'. split.
  - apply bind_returned. unfold collect_around.
    rewrite (bind_normal _ _ _ _ _ E1). cbn [episodes].
    apply bind_returned. exact E2.
  - rewrite F2. unfold drew in D1. subst s1. reflexivity.
Qed.

Lemma game_loop_returns_at_once_witness :
  exists s',
    game_loop_with quitting_road start_loc sampling_radius (S 499) (S 199)
                   horizon frame_budget fresh_state = (Returned, s') /\
    outfile s' = outfile fresh_state.
Proof.
  apply (game_loop_returns_at_once quitting_road start_loc sampling_radius
           499 199 horizon frame_budget fresh_state).
  - reflexivity.
  - left. reflexivity.
  - cbn. discriminate.
  - intros w Hin. cbn in Hin. unfold narrow.
    destruct Hin as [<- | [<- | []]]; vm_compute; discriminate.
Defined.

(** X4: when the lanes of all the successors of the start waypoint are wider
    than twice the radius, the whole loop stops with the [ValueError] of the
    guard right after sampling its first waypoint: no command is sent to the
    vehicle and no row is written. *)
Theorem game_loop_aborts_on_wide_lane (env : Env) (start : Location) (d : Q)
    (n_wp n_pt h : nat) (budget : Z) (s : State) :
  next env (get_waypoint env start) d <> [] ->
  (forall w, In w (next env (get_waypoint env start) d) ->
             radius < lane_width w / 2) ->
  game_loop_with env start d (S n_wp) n_pt h budget s
    = (Raised (ValueError radius_template []), bump_choices s).
Proof.
  intros Hnext Hwide. unfold game_loop_with.
  cbn [ref_path_loop]. unfold py_index. cbn [nth_error].
  rewrite (bind_normal _ _ _ (get_waypoint env start) s) by reflexivity.
  destruct (random_choice_cases env (next env (get_waypoint env start) d) s)
    as [[Hnil _] | [wp [Hin Ec]]]; [contradiction |].
  rewrite (bind_normal _ _ _ _ _ Ec).
  apply bind_raised. unfold collect_around. apply bind_raised.
  apply generate_raises. exact (Hwide wp Hin).
Qed.

Lemma game_loop_aborts_on_wide_lane_witness :
  game_loop_with wide_road start_loc sampling_radius (S 499) 200 horizon
                 frame_budget fresh_state
    = (Raised (ValueError radius_template []), bump_choices fresh_state).
Proof.
  apply (game_loop_aborts_on_wide_lane wide_road start_loc sampling_radius
           499 200 horizon frame_budget fresh_state).
  - cbn. discriminate.
  - intros w Hin. cbn in Hin.
    destruct Hin as [<- | [<- | []]]; vm_compute; reflexivity.
Defined.

(** ** The normalised arrays *)





Section SavingFacts.

Variable np_save : string -> list Q -> M unit.





End SavingFacts.



(** ** The names of the saved files *)

Lemma string_app_inv_head (a b c : string) :
  (a ++ b = a ++ c)%string -> b = c.
Proof.
  induction a as [| ch a IH]; cbn; intros H; [exact H |].
  injection H as H. exact (IH H).
Qed.

Lemma string_length_app (a b : string) :
  String.length (a ++ b) = (String.length a + String.length b)%nat.
Proof.
  induction a as [| ch a IH]; cbn; [reflexivity | rewrite IH; reflexivity].
Qed.

Lemma string_app_inv_tail (t a b : string) :
  (a ++ t = b ++ t)%string -> a = b.
Proof.
  revert b. induction a as [| ch a IH]; intros [| ch' b] H; cbn in H.
  - reflexivity.
  - apply (f_equal String.length) in H. cbn in H.
    rewrite string_length_app in H. lia.
  - apply (f_equal String.length) in H. cbn in H.
    rewrite string_length_app in H. lia.
  - injection H as -> H. rewrite (IH b H). reflexivity.
Qed.

Lemma zeros_lead (k : nat) (d : Decimal.uint) :
  zeros k (DecimalString.NilEmpty.string_of_uint d)
    = DecimalString.NilEmpty.string_of_uint (lead k d).
Proof.
  induction k as [| k IH]; cbn; [reflexivity | rewrite IH; reflexivity].
Qed.

Lemma of_uint_lead (k : nat) (d : Decimal.uint) :
  N.of_uint (lead k d) = N.of_uint d.
Proof. induction k as [| k IH]; [reflexivity | exact IH]. Qed.

Lemma zeros_digits_inj (k1 k2 : nat) (n1 n2 : N) :
  zeros k1 (digits_of n1) = zeros k2 (digits_of n2) -> n1 = n2.
Proof.
  unfold digits_of. rewrite !zeros_lead. intros H.
  apply (f_equal DecimalString.NilEmpty.uint_of_string) in H.
  rewrite !DecimalString.NilEmpty.usu in H. injection H as H.
  apply (f_equal N.of_uint) in H. rewrite !of_uint_lead in H.
  rewrite !DecimalN.Unsigned.of_to in H. exact H.
Qed.

Lemma zeros_digits_no_sign (k : nat) (n : N) (t : string) :
  zeros k (digits_of n) <> String "-" t.
Proof.
  unfold digits_of. rewrite zeros_lead.
  destruct (lead k (N.to_uint n)); cbn; discriminate.
Qed.

Lemma format_08d_inj (n1 n2 : Z) : format_08d n1 = format_08d n2 -> n1 = n2.
Proof.
  unfold format_08d.
  destruct (Z.ltb_spec n1 0) as [H1 | H1];
    destruct (Z.ltb_spec n2 0) as [H2 | H2]; intros H.
  - injection H as H. apply zeros_digits_inj in H. lia.
  - symmetry in H. elim (zeros_digits_no_sign _ _ _ H).
  - elim (zeros_digits_no_sign _ _ _ H).
  - apply zeros_digits_inj in H. lia.
Qed.

(** X7: the files of two frames never collide: equal paths in one directory
    come from equal frame numbers, whatever the sign and the number of
    digits. *)
Theorem ctv_path_injective (save_dir : string) (n1 n2 : Z) :
  ctv_path save_dir n1 = ctv_path save_dir n2 -> n1 = n2.
Proof.
  unfold ctv_path. intros H. apply string_app_inv_head in H.
  apply string_app_inv_tail in H. apply format_08d_inj. exact H.
Qed.

Lemma ctv_path_injective_witness :
  ctv_path "data/" 12 = "data/00000012_ctv"%string /\ 12%Z = 12%Z.
Proof.
  split; [reflexivity |].
  exact (ctv_path_injective "data/" 12 12 eq_refl).
Defined.

(** ** The heading shown by the HUD *)

Lemma Qabs_cases (x : Q) :
  (0 <= x /\ Qabs x == x) \/ (x < 0 /\ Qabs x == - x).
Proof.
  destruct (Qlt_le_dec x 0) as [H | H].
  - right. split; [exact H |]. apply Qabs_neg. lra.
  - left. split; [exact H |]. apply Qabs_pos. exact H.
Qed.

(** X8: whatever the yaw, the heading computed by [HUD.tick] is one of the
    eight compass points: it is never empty and never combines N with S or E
    with W.  It is a single letter exactly on the four bands of one degree
    around 0 (N), 90 (E), -90 (W) and beyond 179.5 in absolute value (S). *)
Theorem heading_is_a_compass_point (yaw : Q) :
  In (HUD_tick_heading yaw)
     ["N"; "S"; "E"; "W"; "NE"; "NW"; "SE"; "SW"]%string /\
  (HUD_tick_heading yaw = "N"%string <->
     - (5 # 10) <= yaw /\ yaw <= 5 # 10) /\
  (HUD_tick_heading yaw = "E"%string <->
     895 # 10 <= yaw /\ yaw <= 905 # 10) /\
  (HUD_tick_heading yaw = "W"%string <->
     - (905 # 10) <= yaw /\ yaw <= - (895 # 10)) /\
  (HUD_tick_heading yaw = "S"%string <->
     yaw <= - (1795 # 10) \/ 1795 # 10 <= yaw).
Proof.
  unfold HUD_tick_heading.
  destruct (Qltb (Qabs yaw) (895 # 10)) eqn:B1;
  destruct (Qltb (905 # 10) (Qabs yaw)) eqn:B2;
  destruct (Qltb yaw (1795 # 10)) eqn:B3;
  destruct (Qltb (5 # 10) yaw) eqn:B4;
  destruct (Qltb yaw (- (5 # 10))) eqn:B5;
  destruct (Qltb (- (1795 # 10)) yaw) eqn:B6;
  repeat match goal with
         | H : Qltb _ _ = true |- _ => apply Qltb_lt in H
         | H : Qltb _ _ = false |- _ => apply Qltb_ge in H
         end;
  destruct (Qabs_cases yaw) as [[Hs Ha] | [Hs Ha]];
  rewrite Ha in B1, B2;
  try (exfalso; lra);
  cbn;
  (split; [tauto |]);
  repeat split; intros; try discriminate; try lra;
  try (exfalso; lra); try reflexivity;
  try (match goal with H : _ \/ _ |- _ => destruct H; lra end).
Qed.

(** ** Fading of a notification *)





(** ** The collision history *)

(** X10: [_on_collision] keeps the history of a live sensor within 4000
    entries: the new entry (frame, intensity of the impulse) goes last, and
    when the history is full its oldest entry is dropped.  It also shows the
    notification.  A callback whose sensor is gone changes nothing. *)
Theorem collision_history_bounded (sqrt : Q -> Q) (alive : bool)
    (event : CollisionEvent) (_history : list (Z * Q)) (hud : HUD) :
  (length _history <= 4000)%nat ->
  let after := CollisionSensor_on_collision sqrt alive event (_history, hud) in
  let impulse := normal_impulse event in
  let entry :=
    (event_frame_number event,
     sqrt (vec_x impulse * vec_x impulse + vec_y impulse * vec_y impulse +
           vec_z impulse * vec_z impulse)) in
  (length (fst after) <= 4000)%nat /\
  (alive = false -> after = (_history, hud)) /\
  (alive = true ->
   ((length _history < 4000)%nat -> fst after = _history ++ [entry]) /\
   (length _history = 4000%nat -> fst after = tl _history ++ [entry]) /\
   ft_text (_notifications (snd after))
     = Some ("Collision with %r"%string, [actor_type event]) /\
   seconds_left (_notifications (snd after)) = notification_seconds).
Proof.
  intros Hlen. cbv zeta. unfold CollisionSensor_on_collision.
  destruct alive; cbn [negb fst snd].
  2:{ split; [exact Hlen |]. split; [reflexivity | discriminate]. }
  set (entry := (event_frame_number event, _)).
  destruct (Nat.ltb_spec 4000 (length (_history ++ [entry]))) as [Hfull | Hok];
    rewrite length_app in *; cbn [length] in *.
  - assert (H4000 : length _history = 4000%nat) by lia.
    destruct _history as [| e0 rest]; [discriminate |].
    cbn [app tl length] in *. rewrite length_app. cbn [length].
    split; [lia |]. split; [discriminate |]. intros _.
    split; [lia |]. split; [reflexivity |]. split; reflexivity.
  - split; [lia |]. split; [discriminate |]. intros _.
    split; [reflexivity |]. split; [lia |]. split; reflexivity.
Qed.

Lemma collision_history_bounded_witness :
  let after :=
    CollisionSensor_on_collision (fun x => x) true
      (mkCollisionEvent 12 (mkVector3D 1 0 0) "Audi Tt")
      ([(10%Z, 2)], mkHUD true FadingText_init false) in
  (length (fst after) <= 4000)%nat /\ fst after = [(10%Z, 2); (12%Z, 1 * 1 + 0 * 0 + 0 * 0)].
Proof.
  cbv zeta.
  destruct (collision_history_bounded (fun x => x) true
              (mkCollisionEvent 12 (mkVector3D 1 0 0) "Audi Tt")
              [(10%Z, 2)] (mkHUD true FadingText_init false))
    as [Hb [_ Hlive]].
  - cbn. lia.
  - split; [exact Hb |].
    destruct (Hlive eq_refl) as [Happ _]. apply Happ. cbn. lia.
Defined.

Lemma dict_get_add_same (d : defaultdict) (k : Z) (v : Q) :
  dict_get (dict_add d k v) k = dict_get d k + v.
Proof.
  induction d as [| [k' v'] rest IH]; cbn [dict_add dict_get].
  - rewrite Z.eqb_refl. reflexivity.
  - destruct (Z.eqb_spec k k') as [-> | Hne]; cbn [dict_get].
    + rewrite Z.eqb_refl. reflexivity.
    + destruct (Z.eqb_spec k k'); [contradiction | exact IH].
Qed.

Lemma dict_get_add_other (d : defaultdict) (k f : Z) (v : Q) :
  f <> k -> dict_get (dict_add d k v) f = dict_get d f.
Proof.
  intros Hf. induction d as [| [k' v'] rest IH]; cbn [dict_add dict_get].
  - destruct (Z.eqb_spec f k); [contradiction | reflexivity].
  - destruct (Z.eqb_spec k k') as [-> | Hne]; cbn [dict_get].
    + destruct (Z.eqb_spec f k'); [contradiction | reflexivity].
    + destruct (Z.eqb_spec f k'); [reflexivity | exact IH].
Qed.

Lemma dict_add_keys (d : defaultdict) (k : Z) (v : Q) :
  map fst (dict_add d k v) =
    if existsb (Z.eqb k) (map fst d) then map fst d else map fst d ++ [k].
Proof.
  induction d as [| [k' v'] rest IH]; cbn [dict_add map fst existsb];
    [reflexivity |].
  destruct (Z.eqb_spec k k') as [-> | Hne]; cbn [orb map fst];
    [reflexivity |].
  rewrite IH. destruct (existsb (Z.eqb k) (map fst rest)); reflexivity.
Qed.

Lemma existsb_eqb_In (k : Z) (l : list Z) :
  existsb (Z.eqb k) l = true <-> In k l.
Proof.
  rewrite existsb_exists. split.
  - intros [x [Hin E]]. apply Z.eqb_eq in E. subst. exact Hin.
  - intros Hin. exists k. split; [exact Hin | apply Z.eqb_refl].
Qed.

Lemma collision_history_fold (_history : list (Z * Q)) :
  forall (acc : defaultdict) (f : Z),
    let d := fold_left (fun history entry =>
                          dict_add history (fst entry) (snd entry))
                       _history acc in
    dict_get d f == dict_get acc f + intensity_at _history f /\
    (NoDup (map fst acc) -> NoDup (map fst d)) /\
    (In f (map fst d) <-> In f (map fst acc) \/ In f (map fst _history)).
Proof.
  induction _history as [| [k v] rest IH]; intros acc f; cbv zeta.
  - cbn. split; [ring |]. split; [auto | tauto].
  - cbn [fold_left intensity_at fold_right fst snd map].
    fold (intensity_at rest f).
    destruct (IH (dict_add acc k v) f) as [Hget [Hnd Hin]].
    cbv zeta in Hget, Hnd, Hin.
    split; [| split].
    + rewrite Hget. destruct (Z.eqb_spec f k) as [-> | Hne].
      * rewrite dict_get_add_same. ring.
      * rewrite (dict_get_add_other _ _ _ _ Hne). reflexivity.
    + intros Hacc. apply Hnd. rewrite dict_add_keys.
      destruct (existsb (Z.eqb k) (map fst acc)) eqn:E; [exact Hacc |].
      apply NoDup_app; [exact Hacc | repeat constructor; intros [] |].
      intros x Hx [<- | []]. apply existsb_eqb_In in Hx. congruence.
    + rewrite Hin, dict_add_keys. cbn [In].
      destruct (existsb (Z.eqb k) (map fst acc)) eqn:E.
      * apply existsb_eqb_In in E. split; [tauto |].
        intros [H | [<- | H]]; tauto.
      * rewrite in_app_iff. cbn [In]. tauto.
Qed.

(** X11: the dictionary returned by [get_collision_history] maps every frame
    to the sum of the intensities recorded for it (0 for a frame without
    collision), holds each frame once, and holds exactly the frames of the
    history. *)
Theorem collision_history_sums (_history : list (Z * Q)) (f : Z) :
  dict_get (get_collision_history _history) f == intensity_at _history f /\
  NoDup (map fst (get_collision_history _history)) /\
  (In f (map fst (get_collision_history _history))
     <-> In f (map fst _history)).
Proof.
  destruct (collision_history_fold _history [] f) as [Hget [Hnd Hin]].
  cbv zeta in Hget, Hnd, Hin. unfold get_collision_history.
  split; [rewrite Hget; cbn; ring |].
  split; [apply Hnd; constructor |].
  rewrite Hin. cbn. tauto.
Qed.

(** ** The collision graph of the HUD *)

Lemma py_max2_ge (a b : Q) : a <= py_max2 a b /\ b <= py_max2 a b.
Proof.
  unfold py_max2. destruct (Qltb a b) eqn:E.
  - apply Qltb_lt in E. split; lra.
  - apply Qltb_ge in E. split; lra.
Qed.

Lemma fold_py_max2_ge (rest : list Q) :
  forall x, x <= fold_left py_max2 rest x /\
            Forall (fun y => y <= fold_left py_max2 rest x) rest.
Proof.
  induction rest as [| y rest IH]; intros x; cbn [fold_left].
  - split; [lra | constructor].
  - destruct (IH (py_max2 x y)) as [H1 H2].
    destruct (py_max2_ge x y) as [Hx Hy].
    split; [lra |]. constructor; [lra | exact H2].
Qed.

Lemma div_each_total (collision : list Q) (max_col : Q) (s : State) :
  ~ max_col == 0 ->
  div_each collision max_col s
    = (Normal (map (fun x => x / max_col) collision), s).
Proof.
  intros Hm. induction collision as [| x rest IH]; [reflexivity |].
  cbn [div_each map]. unfold py_div at 1.
  apply Qeq_bool_false_neq in Hm. rewrite Hm.
  rewrite (bind_normal _ _ _ (x / max_col) s) by reflexivity.
  rewrite (bind_normal _ _ _ _ _ IH). reflexivity.
Qed.

Lemma dict_get_nonneg (d : defaultdict) (k : Z) :
  Forall (fun entry => 0 <= snd entry) d -> 0 <= dict_get d k.
Proof.
  induction 1 as [| [k' v] rest Hv _ IH]; cbn [dict_get]; [lra |].
  destruct (k =? k')%Z; [exact Hv | exact IH].
Qed.

(** X12: the collision graph of [HUD.tick] is always computed: the division
    by the maximum never fails because the divisor is at least 1.  The graph
    holds 200 values, the entries of the last 200 frames divided by a common
    scale that is at least 1 and at least every entry, so no value exceeds 1;
    when no entry is negative, no value is. *)
Theorem collision_graph_scaled (colhist : defaultdict) (frame : Z)
    (s : State) :
  exists max_col collision,
    HUD_tick_collision colhist frame s = (Normal collision, s) /\
    length collision = 200%nat /\
    1 <= max_col /\
    Forall (fun x => x <= max_col) (last_200_frames colhist frame) /\
    collision = map (fun x => x / max_col) (last_200_frames colhist frame) /\
    Forall (fun y => y <= 1) collision /\
    (Forall (fun entry => 0 <= snd entry) colhist ->
     Forall (fun y => 0 <= y) collision).
Proof.
  unfold HUD_tick_collision. fold (last_200_frames colhist frame).
  set (raw := last_200_frames colhist frame).
  assert (Hlen : length raw = 200%nat)
    by (unfold raw, last_200_frames; rewrite length_map, length_seq;
        reflexivity).
  destruct raw as [| x rest] eqn:Eraw; [discriminate |].
  cbn [py_max].
  rewrite (bind_normal _ _ _ (fold_left py_max2 rest x) s) by reflexivity.
  set (m := fold_left py_max2 rest x).
  destruct (fold_py_max2_ge rest x) as [Hx Hrest]. fold m in Hx, Hrest.
  destruct (py_max2_ge 1 m) as [H1 Hm].
  set (max_col := py_max2 1 m) in *.
  assert (Hall : Forall (fun y => y <= max_col) (x :: rest)).
  { constructor; [lra |]. eapply Forall_impl; [| exact Hrest].
    cbv beta. intros y Hy. lra. }
  exists max_col, (map (fun y => y / max_col) (x :: rest)).
  split; [apply div_each_total; intros E; rewrite E in H1; lra |].
  split; [rewrite length_map; exact Hlen |].
  split; [exact H1 |]. split; [exact Hall |]. split; [reflexivity |].
  split.
  - apply Forall_map. eapply Forall_impl; [| exact Hall].
    cbv beta. intros y Hy. apply Qle_shift_div_r; lra.
  - intros Hpos. apply Forall_map.
    assert (Hraw : Forall (fun y => 0 <= y) (x :: rest)).
    { rewrite <- Eraw. unfold raw, last_200_frames. apply Forall_map.
      apply Forall_forall. intros k _. apply dict_get_nonneg. exact Hpos. }
    eapply Forall_impl; [| exact Hraw].
    cbv beta. intros y Hy. apply Qle_shift_div_l; lra.
Qed.

(** ** The weather *)

Lemma py_getitem_in_range {A} (seq : list A) (i : Z) :
  (0 <= i < Z.of_nat (length seq))%Z ->
  exists a, py_getitem seq i = Some a /\
            nth_error seq (Z.to_nat i) = Some a.
Proof.
  intros Hi. unfold py_getitem.
  replace ((0 <=? i) && (i <? Z.of_nat (length seq)))%Z with true
    by (symmetry; apply andb_true_iff; split;
        [apply Z.leb_le | apply Z.ltb_lt]; lia).
  destruct (nth_error seq (Z.to_nat i)) as [a |] eqn:E.
  - exists a. split; reflexivity.
  - apply nth_error_None in E. lia.
Qed.

Lemma World_next_weather_ok (presets : list (nat * string)) (rev_ : bool)
    (u : Ui) :
  presets <> [] ->
  let n := Z.of_nat (length presets) in
  let i := ((_weather_index u + (if rev_ then -1 else 1)) mod n)%Z in
  exists preset,
    nth_error presets (Z.to_nat i) = Some preset /\
    World_next_weather presets rev_ u =
      (Ok tt,
       act (SetWeather (fst preset))
           (notify ("Weather: %s"%string, [snd preset]) notification_seconds
              (with_weather_index i
                 (with_weather_index
                    (_weather_index u + (if rev_ then -1 else 1))%Z u)))).
Proof.
  intros Hne. cbv zeta.
  assert (Hn : (0 < Z.of_nat (length presets))%Z)
    by (destruct presets; [contradiction | cbn; lia]).
  set (n := Z.of_nat (length presets)) in *.
  set (i := ((_weather_index u + (if rev_ then -1 else 1)) mod n)%Z).
  assert (Hi : (0 <= i < n)%Z) by (apply Z.mod_pos_bound; exact Hn).
  destruct (py_getitem_in_range presets i Hi) as [preset [Hget Hnth]].
  exists preset. split; [exact Hnth |].
  unfold World_next_weather. fold n.
  destruct (Z.eqb_spec n 0) as [E | _]; [lia |].
  cbn [_weather_index with_weather_index]. fold i. rewrite Hget.
  reflexivity.
Qed.

(** X13: with at least one preset, [next_weather] always succeeds: it moves
    the index one step forward (backward with [reverse]) modulo the number of
    presets, so the index ends in range whatever it was, sets the weather of
    the preset at the new index and shows its name.  A step one way followed
    by a step the other way brings an index that was in range back where it
    was.  Without presets the modulo raises [ZeroDivisionError] after the
    index has already been moved. *)
Theorem next_weather_steps (presets : list (nat * string)) (rev_ : bool)
    (u : Ui) :
  let n := Z.of_nat (length presets) in
  (presets <> [] ->
   exists preset u',
     World_next_weather presets rev_ u = (Ok tt, u') /\
     _weather_index u'
       = ((_weather_index u + (if rev_ then -1 else 1)) mod n)%Z /\
     (0 <= _weather_index u' < n)%Z /\
     nth_error presets (Z.to_nat (_weather_index u')) = Some preset /\
     actions u' = actions u ++ [SetWeather (fst preset)] /\
     ft_text (_notifications (hud u'))
       = Some ("Weather: %s"%string, [snd preset]) /\
     ((0 <= _weather_index u < n)%Z ->
      exists u'',
        World_next_weather presets (negb rev_) u' = (Ok tt, u'') /\
        _weather_index u'' = _weather_index u)) /\
  (presets = [] ->
   exists u',
     World_next_weather presets rev_ u
       = (Err (Builtin ZeroDivisionError), u') /\
     _weather_index u'
       = (_weather_index u + (if rev_ then -1 else 1))%Z /\
     actions u' = actions u).
Proof.
  cbv zeta. split.
  - intros Hne.
    destruct (World_next_weather_ok presets rev_ u Hne) as [preset [Hnth E]].
    cbv zeta in Hnth, E.
    assert (Hn : (0 < Z.of_nat (length presets))%Z)
      by (destruct presets; [contradiction | cbn; lia]).
    eexists preset, _. split; [exact E |].
    cbn [_weather_index act notify with_hud with_weather_index actions hud].
    split; [reflexivity |].
    split; [apply Z.mod_pos_bound; exact Hn |].
    split; [exact Hnth |]. split; [reflexivity |]. split; [reflexivity |].
    intros Hin.
    match goal with
    | |- context [World_next_weather presets (negb rev_) ?u1] =>
        destruct (World_next_weather_ok presets (negb rev_) u1 Hne)
          as [preset' [_ E']]
    end.
    cbv zeta in E'. eexists. split; [exact E' |].
    cbn [_weather_index act notify with_hud with_weather_index].
    destruct rev_; cbn [negb].
    + rewrite Z.add_mod_idemp_l by lia.
      replace (_weather_index u + -1 + 1)%Z with (_weather_index u) by lia.
      apply Z.mod_small. exact Hin.
    + rewrite Z.add_mod_idemp_l by lia.
      replace (_weather_index u + 1 + -1)%Z with (_weather_index u) by lia.
      apply Z.mod_small. exact Hin.
  - intros ->. eexists. split; [reflexivity |]. split; reflexivity.
Qed.

Lemma next_weather_steps_witness :
  exists u' u'',
    World_next_weather three_presets false fresh_ui = (Ok tt, u') /\
    _weather_index u' = 1%Z /\
    World_next_weather three_presets true u' = (Ok tt, u'') /\
    _weather_index u'' = _weather_index fresh_ui.
Proof.
  destruct (proj1 (next_weather_steps three_presets false fresh_ui))
    as [preset [u' [E [Hi [_ [_ [_ [_ Hback]]]]]]]].
  - discriminate.
  - destruct Hback as [u'' [E' Hi']]; [cbn; lia |].
    exists u', u''. split; [exact E |]. split; [exact Hi |].
    split; [exact E' | exact Hi'].
Defined.

(** ** The camera manager *)

Lemma live_sensors_app (l l' : list Action) :
  live_sensors (l ++ l') = (live_sensors l + live_sensors l')%Z.
Proof.
  induction l as [| a l IH]; [reflexivity |].
  destruct a; cbn [app live_sensors]; rewrite ?IH; lia.
Qed.

Lemma sensors_in_range (i : Z) :
  (0 <= i < 7)%Z ->
  i = 0%Z \/ i = 1%Z \/ i = 2%Z \/ i = 3%Z \/ i = 4%Z \/ i = 5%Z \/
  i = 6%Z.
Proof. lia. Qed.

Lemma set_sensor_ok (index : Z) (notify_ : bool) (u : Ui) :
  camera_ok u ->
  exists u',
    CameraManager_set_sensor index notify_ u = (Ok tt, u') /\
    camera_ok u' /\
    _index u' = Some (index mod 7)%Z /\
    _recording u' = _recording u.
Proof.
  intros [Hti Hidx].
  unfold CameraManager_set_sensor.
  change (Z.of_nat (length _sensors)) with 7%Z.
  assert (Hi : (0 <= index mod 7 < 7)%Z) by (apply Z.mod_pos_bound; lia).
  remember (index mod 7)%Z as i eqn:Ei. clear Ei index.
  destruct (py_getitem_in_range _camera_transforms (_transform_index u) Hti)
    as [tf [Htf _]].
  destruct u as [h sen surf rec ti idx wi ap ctl sc sp acts].
  cbn [_index sensor actions _transform_index _recording] in *.
  destruct idx as [old |].
  - destruct Hidx as [Hold [a [item [-> [Hitem [Hbp Hlive]]]]]].
    destruct (sensors_in_range i Hi)
      as [-> | [-> | [-> | [-> | [-> | [-> | ->]]]]]];
    destruct (sensors_in_range old Hold)
      as [-> | [-> | [-> | [-> | [-> | [-> | ->]]]]]];
    cbn in Hitem; injection Hitem as <-;
    cbn -[_camera_transforms]; rewrite ?Htf;
    destruct notify_; eexists; (split; [reflexivity |]);
    (split; [| split; reflexivity]);
    (split; [exact Hti |]); cbn;
    (split; [lia |]); do 2 eexists;
    (split; [reflexivity |]); (split; [reflexivity |]);
    (split; [try reflexivity; try exact Hbp |]);
    rewrite ?live_sensors_app; cbn; lia.
  - destruct Hidx as [-> Hlive].
    destruct (sensors_in_range i Hi)
      as [-> | [-> | [-> | [-> | [-> | [-> | ->]]]]]];
    cbn -[_camera_transforms]; rewrite ?Htf;
    destruct notify_; eexists; (split; [reflexivity |]);
    (split; [| split; reflexivity]);
    (split; [exact Hti |]); cbn;
    (split; [lia |]); do 2 eexists;
    (split; [reflexivity |]); (split; [reflexivity |]);
    (split; [reflexivity |]);
    rewrite ?live_sensors_app; cbn; lia.
Qed.

(** X14: from a consistent camera manager [set_sensor] always succeeds and
    leaves it consistent, with the index reduced modulo 7.  The sensor is
    destroyed and a new one spawned (the surface being dropped) exactly when
    the blueprint of the new entry differs from the one of the current entry;
    switching between entries of one blueprint keeps the actor and makes no
    call into the simulator; the first selection only spawns.  So at most one
    camera sensor is ever alive. *)
Theorem set_sensor_keeps_camera (index : Z) (notify_ : bool) (u : Ui) :
  camera_ok u ->
  exists u',
    CameraManager_set_sensor index notify_ u = (Ok tt, u') /\
    camera_ok u' /\
    _index u' = Some (index mod 7)%Z /\
    (forall old,
       _index u = Some old ->
       sensor_type_at old = sensor_type_at (index mod 7) ->
       sensor u' = sensor u /\ _surface u' = _surface u /\
       actions u' = actions u) /\
    (forall old,
       _index u = Some old ->
       sensor_type_at old <> sensor_type_at (index mod 7) ->
       exists a a',
         sensor u = Some a /\ sensor u' = Some a' /\
         actor_id a' = spawned u /\ _surface u' = None /\
         actions u' = actions u ++ [Destroy (actor_id a); Spawn a']) /\
    (_index u = None ->
     exists a',
       sensor u' = Some a' /\ actions u' = actions u ++ [Spawn a']).
Proof.
  intros [Hti Hidx].
  unfold CameraManager_set_sensor.
  change (Z.of_nat (length _sensors)) with 7%Z.
  assert (Hi : (0 <= index mod 7 < 7)%Z) by (apply Z.mod_pos_bound; lia).
  remember (index mod 7)%Z as i eqn:Ei. clear Ei index.
  destruct (py_getitem_in_range _camera_transforms (_transform_index u) Hti)
    as [tf [Htf _]].
  destruct u as [h sen surf rec ti idx wi ap ctl sc sp acts].
  cbn [_index sensor actions _transform_index _surface spawned] in *.
  destruct idx as [old |].
  - destruct Hidx as [Hold [a [item [-> [Hitem [Hbp Hlive]]]]]].
    destruct (sensors_in_range i Hi)
      as [-> | [-> | [-> | [-> | [-> | [-> | ->]]]]]];
    destruct (sensors_in_range old Hold)
      as [-> | [-> | [-> | [-> | [-> | [-> | ->]]]]]];
    cbn in Hitem; injection Hitem as <-;
    cbn -[_camera_transforms]; rewrite ?Htf;
    destruct notify_; eexists; (split; [reflexivity |]);
    (split;
     [ split; [exact Hti |]; cbn; split; [lia |]; do 2 eexists;
       split; [reflexivity |]; split; [reflexivity |];
       split; [try reflexivity; try exact Hbp |];
       rewrite ?live_sensors_app; cbn; lia
     | split; [reflexivity |];
       split; [| split; [| discriminate]];
       intros ? [= <-] Hty; vm_compute in Hty;
       try discriminate; try (elim Hty; reflexivity);
       cbn; rewrite <- ?app_assoc; cbn; eauto 10 ]).
  - destruct Hidx as [-> Hlive].
    destruct (sensors_in_range i Hi)
      as [-> | [-> | [-> | [-> | [-> | [-> | ->]]]]]];
    cbn -[_camera_transforms]; rewrite ?Htf;
    destruct notify_; eexists; (split; [reflexivity |]);
    (split;
     [ split; [exact Hti |]; cbn; split; [lia |]; do 2 eexists;
       split; [reflexivity |]; split; [reflexivity |];
       split; [reflexivity |];
       rewrite ?live_sensors_app; cbn; lia
     | split; [reflexivity |];
       split; [discriminate |]; split; [discriminate |];
       intros _; cbn; eauto ]).
Qed.

Lemma fresh_ui_camera_ok : camera_ok fresh_ui.
Proof. split; [cbn; lia | split; reflexivity]. Qed.

(** [World.__init__] selects the logarithmic depth camera, entry 3; going to
    the gray scale depth camera, entry 2, keeps the actor. *)
Lemma set_sensor_keeps_camera_witness :
  exists u1 u2,
    CameraManager_set_sensor 3 false fresh_ui = (Ok tt, u1) /\
    CameraManager_set_sensor 2 true u1 = (Ok tt, u2) /\
    sensor u2 = sensor u1 /\ actions u2 = actions u1.
Proof.
  destruct (set_sensor_keeps_camera 3 false fresh_ui fresh_ui_camera_ok)
    as [u1 [E1 [Hok1 [Hi1 _]]]].
  destruct (set_sensor_keeps_camera 2 true u1 Hok1)
    as [u2 [E2 [_ [_ [Hsame _]]]]].
  exists u1, u2. split; [exact E1 |]. split; [exact E2 |].
  destruct (Hsame _ Hi1 eq_refl) as [Hs [_ Ha]]. split; assumption.
Defined.





(** ** Recording *)

(** X17: the callback that [set_sensor] registers never saves an image.  On
    a consistent manager with a selected sensor it replaces the surface (the
    conversion of the image being taken to succeed), and
    then ends normally when recording is off but raises the [ValueError]
    "no valid dir to save image" when recording is on; in both cases no call
    is made into the simulator.  So after [toggle_recording] has switched
    recording on, every image makes the callback raise.  A callback whose
    manager is gone does nothing. *)
Theorem recording_never_saves (frame : Z) (u : Ui) :
  camera_ok u -> _index u <> None ->
  (exists u',
     registered_callback true frame u
       = (if _recording u
          then Err (Builtin (ValueError "no valid dir to save image" []))
          else Ok tt, u') /\
     actions u' = actions u /\ _surface u' <> None /\ camera_ok u') /\
  (_recording u = false ->
   exists u1 u2,
     CameraManager_toggle_recording u = (Ok tt, u1) /\
     _recording u1 = true /\
     registered_callback true frame u1
       = (Err (Builtin (ValueError "no valid dir to save image" [])), u2) /\
     actions u2 = actions u) /\
  registered_callback false frame u = (Ok tt, u).
Proof.
  intros [Hti Hidx] Hsome.
  destruct u as [h sen surf rec ti idx wi ap ctl sc sp acts].
  cbn [_index sensor actions _transform_index _recording] in *.
  destruct idx as [i |]; [| contradiction].
  destruct Hidx as [Hi [a [item [-> [Hitem [Hbp Hlive]]]]]].
  unfold registered_callback, CameraManager_parse_image,
    CameraManager_toggle_recording.
  cbn [negb _index with_recording notify with_hud _recording].
  rewrite Hitem.
  assert (Hok : forall f r h',
            camera_ok (mkUi h' (Some a) f r ti (Some i) wi ap ctl sc sp acts)).
  { intros f r h'. split; [exact Hti |]. cbn. split; [exact Hi |].
    exists a, item. auto. }
  split; [| split; [| reflexivity]].
  - destruct (prefix "sensor.lidar" (sensor_type item)), rec;
      cbn; eexists; (split; [reflexivity |]);
      (split; [reflexivity |]); (split; [discriminate | apply Hok]).
  - intros ->.
    destruct (prefix "sensor.lidar" (sensor_type item)) eqn:Ep;
      do 2 eexists; (split; [reflexivity |]); (split; [reflexivity |]);
      cbn -[py_getitem _sensors prefix]; rewrite Hitem, Ep;
      cbn; split; reflexivity.
Qed.

Lemma recording_never_saves_witness :
  exists u1 u2 u3,
    CameraManager_set_sensor 3 false fresh_ui = (Ok tt, u1) /\
    CameraManager_toggle_recording u1 = (Ok tt, u2) /\
    registered_callback true 42 u2
      = (Err (Builtin (ValueError "no valid dir to save image" [])), u3) /\
    actions u3 = actions u1.
Proof.
  destruct (set_sensor_ok 3 false fresh_ui fresh_ui_camera_ok)
    as [u1 [E1 [Hok1 [Hi1 Hrec]]]].
  destruct (recording_never_saves 42 u1 Hok1) as [_ [Hrecord _]].
  - rewrite Hi1. discriminate.
  - destruct Hrecord as [u2 [u3 [E2 [_ [E3 Ha]]]]]; [exact Hrec |].
    exists u1, u2, u3. auto.
Defined.

(** ** The keyboard *)

Section KeyboardFacts.

Variable presets : list (nat * string).
Variable K : Keys.
Variable round1 : Q -> Q.

Lemma steer_clamp (c : Q) :
  let c' := py_min2 (7 # 10) (py_max2 (- (7 # 10)) c) in
  - (7 # 10) <= c' /\ c' <= 7 # 10 /\
  (- (7 # 10) <= c /\ c <= 7 # 10 -> c' == c).
Proof.
  cbv zeta. unfold py_min2, py_max2.
  destruct (Qltb (- (7 # 10)) c) eqn:E1.
  - apply Qltb_lt in E1.
    destruct (Qltb c (7 # 10)) eqn:E2.
    + apply Qltb_lt in E2. repeat split; lra.
    + apply Qltb_ge in E2. repeat split; lra.
  - apply Qltb_ge in E1. cbn. repeat split; lra.
Qed.


(** X18: whatever the keys, the clock and the previous state,
    [_parse_keys] leaves the steering cache between -0.7 and 0.7 and sets the
    steer to the rounded cache; throttle and brake are 0 or 1, the reverse
    gear is kept and no call is made into the simulator.  Without a steering
    key the cache is reset to 0; with a left key (even if a right key is held
    too) a cache that was within bounds does not grow, with a right key alone
    it does not shrink. *)
Theorem parse_keys_clamps (keys : Z -> bool) (milliseconds : Z) (u : Ui) :
  let u' := _parse_keys K round1 keys milliseconds u in
  let left := keys (K_LEFT K) || keys (K_a K) in
  let right := keys (K_RIGHT K) || keys (K_d K) in
  let bounded := - (7 # 10) <= _steer_cache u /\ _steer_cache u <= 7 # 10 in
  (- (7 # 10) <= _steer_cache u' /\ _steer_cache u' <= 7 # 10) /\
  kc_steer (_control u') = round1 (_steer_cache u') /\
  (kc_throttle (_control u') = 0 \/ kc_throttle (_control u') = 1) /\
  (kc_brake (_control u') = 0 \/ kc_brake (_control u') = 1) /\
  reverse (_control u') = reverse (_control u) /\
  hand_brake (_control u') = keys (K_SPACE K) /\
  actions u' = actions u /\
  (left = false -> right = false -> _steer_cache u' = 0) /\
  (left = true -> (0 <= milliseconds)%Z -> bounded ->
   _steer_cache u' <= _steer_cache u) /\
  (left = false -> right = true -> (0 <= milliseconds)%Z -> bounded ->
   _steer_cache u <= _steer_cache u').
Proof.
  cbv zeta. unfold _parse_keys.
  cbn [_steer_cache _control with_control with_steer_cache kc_steer
       kc_throttle kc_brake reverse hand_brake actions].
  set (inc := (5 # 10000) * inject_Z milliseconds).
  set (c := if keys (K_LEFT K) || keys (K_a K) then _steer_cache u - inc
            else if keys (K_RIGHT K) || keys (K_d K)
                 then _steer_cache u + inc else 0).
  destruct (steer_clamp c) as [Hlo [Hhi Hid]]. cbv zeta in Hlo, Hhi, Hid.
  assert (Hinc : (0 <= milliseconds)%Z -> 0 <= inc).
  { intros Hm. unfold inc. apply Qmult_le_0_compat; [lra |].
    change 0 with (inject_Z 0). rewrite <- Zle_Qle. exact Hm. }
  split; [split; assumption |]. split; [reflexivity |].
  split; [destruct (keys (K_UP K) || keys (K_w K)); auto |].
  split; [destruct (keys (K_DOWN K) || keys (K_s K)); auto |].
  split; [reflexivity |]. split; [reflexivity |]. split; [reflexivity |].
  split; [| split].
  - intros Hl Hr. unfold c. rewrite Hl, Hr. reflexivity.
  - intros Hl Hm [B1 B2]. specialize (Hinc Hm).
    unfold c in *. rewrite Hl in *.
    clear Hid. unfold py_min2, py_max2 in *.
    destruct (Qltb (- (7 # 10)) (_steer_cache u - inc)) eqn:E1.
    + destruct (Qltb (_steer_cache u - inc) (7 # 10)) eqn:E2; [lra |].
      apply Qltb_ge in E2. lra.
    + cbn. exact B1.
  - intros Hl Hr Hm [B1 B2]. specialize (Hinc Hm).
    unfold c in *. rewrite Hl, Hr in *.
    clear Hid. unfold py_min2, py_max2 in *.
    destruct (Qltb (- (7 # 10)) (_steer_cache u + inc)) eqn:E1.
    + destruct (Qltb (_steer_cache u + inc) (7 # 10)) eqn:E2; [lra |].
      exact B2.
    + apply Qltb_ge in E1. cbn. lra.
Qed.

(** ** The event queue *)

Lemma handle_event_true (mods : Mods) (event : Event) (u u' : Ui) :
  handle_event presets K mods event u = (Ok true, u') ->
  is_quit K mods event = true /\ u' = u.
Proof.
  intros H. destruct event as [| key |]; cbn [is_quit].
  - injection H as <-. auto.
  - unfold handle_event in H.
    destruct (_is_quit_shortcut K mods key);
      [injection H as <-; auto |].
    exfalso.
    repeat match type of H with
           | context [if ?b then _ else _] => destruct b
           end;
      try discriminate;
      match type of H with
      | context [match ?r with _ => _ end] =>
          destruct r as [[|] ?]; discriminate
      end.
  - discriminate.
Qed.

Lemma handle_event_quit (mods : Mods) (event : Event) (u : Ui) :
  is_quit K mods event = true ->
  handle_event presets K mods event u = (Ok true, u).
Proof.
  intros H. destruct event as [| key |]; cbn in H |- *;
    [reflexivity | rewrite H; reflexivity | discriminate].
Qed.

Lemma parse_events_loop_app (mods : Mods) (before rest : list Event) :
  forall u u1,
    parse_events_loop presets K mods before u = (Ok false, u1) ->
    parse_events_loop presets K mods (before ++ rest) u
      = parse_events_loop presets K mods rest u1.
Proof.
  induction before as [| e before IH]; intros u u1 H; cbn in H |- *.
  - injection H as ->. reflexivity.
  - destruct (handle_event presets K mods e u) as [[[|] | err] u2];
      try discriminate. exact (IH u2 u1 H).
Qed.

Lemma parse_events_loop_true (mods : Mods) (events : list Event) :
  forall u u',
    parse_events_loop presets K mods events u = (Ok true, u') ->
    existsb (is_quit K mods) events = true.
Proof.
  induction events as [| e rest IH]; intros u u' H; cbn in H |- *.
  - discriminate.
  - destruct (handle_event presets K mods e u) as [[[|] | err] u2] eqn:E.
    + apply handle_event_true in E. destruct E as [-> _]. reflexivity.
    + rewrite (IH u2 u' H). apply orb_true_r.
    + discriminate.
Qed.

(** X19: [parse_events] returns [True] only when the queue holds a quit
    event: a QUIT event, or the release of Escape, or of Q while Ctrl is
    held.  At the first quit event it returns at once: the state is the one
    left by the events before it, the events after it are not handled, and
    the control of the keyboard is not applied even when the autopilot is
    off.  When it does not return [True] and the autopilot is off, the last
    call into the simulator applies the control computed by [_parse_keys];
    when the autopilot is on it applies nothing. *)
Theorem parse_events_quits (mods : Mods) (events : list Event)
    (keys : Z -> bool) (clock_get_time : Z) (u : Ui) :
  let run := KeyboardControl_parse_events presets K round1 mods events keys
               clock_get_time u in
  (forall u', run = (Ok true, u') ->
              existsb (is_quit K mods) events = true) /\
  (forall before event rest u1,
     events = before ++ event :: rest ->
     is_quit K mods event = true ->
     parse_events_loop presets K mods before u = (Ok false, u1) ->
     run = (Ok true, u1)) /\
  (forall u', run = (Ok false, u') ->
     exists u1,
       parse_events_loop presets K mods events u = (Ok false, u1) /\
       if _autopilot_enabled u1
       then u' = u1
       else u' = act (ApplyControl (_control u'))
                     (_parse_keys K round1 keys clock_get_time u1)).
Proof.
  cbv zeta. unfold KeyboardControl_parse_events. split; [| split].
  - intros u' H.
    destruct (parse_events_loop presets K mods events u)
      as [[[|] | err] u1] eqn:E.
    + eapply parse_events_loop_true. exact E.
    + destruct (negb (_autopilot_enabled u1)); discriminate.
    + discriminate.
  - intros before event rest u1 -> Hq Hb.
    rewrite (parse_events_loop_app mods before (event :: rest) u u1 Hb).
    cbn [parse_events_loop]. rewrite (handle_event_quit mods event u1 Hq).
    reflexivity.
  - intros u' H.
    destruct (parse_events_loop presets K mods events u)
      as [[[|] | err] u1] eqn:E; try discriminate.
    exists u1. split; [reflexivity |].
    destruct (_autopilot_enabled u1); cbn [negb] in H;
      injection H as <-; reflexivity.
Qed.

(** X20: the release of Backspace, when it is not itself a quit key and is
    reached before any quit event, makes [parse_events] raise
    [AttributeError]: [World.restart] calls a method that the class does not
    define.  The exception leaves the state as the events before it left it,
    and the events after it are not handled. *)
Theorem backspace_raises (mods : Mods) (before rest : list Event)
    (keys : Z -> bool) (clock_get_time : Z) (u u1 : Ui) :
  _is_quit_shortcut K mods (K_BACKSPACE K) = false ->
  parse_events_loop presets K mods before u = (Ok false, u1) ->
  KeyboardControl_parse_events presets K round1 mods
    (before ++ KEYUP (K_BACKSPACE K) :: rest) keys clock_get_time u
    = (Err (AttributeError "_get_random_blueprint"), u1).
Proof.
  intros Hq Hb. unfold KeyboardControl_parse_events.
  rewrite (parse_events_loop_app mods before _ u u1 Hb).
  cbn [parse_events_loop handle_event]. rewrite Hq, Z.eqb_refl.
  reflexivity.
Qed.

End KeyboardFacts.

Lemma parse_keys_clamps_witness :
  let u' := _parse_keys pygame_keys (fun x => x) (Z.eqb 276) 16
                        (with_steer_cache (- (7 # 10)) fresh_ui) in
  - (7 # 10) <= _steer_cache u' /\
  _steer_cache u' <= _steer_cache (with_steer_cache (- (7 # 10)) fresh_ui).
Proof.
  cbv zeta.
  destruct (parse_keys_clamps pygame_keys (fun x => x) (Z.eqb 276) 16
              (with_steer_cache (- (7 # 10)) fresh_ui))
    as [[Hlo _] [_ [_ [_ [_ [_ [_ [_ [Hleft _]]]]]]]]].
  split; [exact Hlo |]. apply Hleft.
  - reflexivity.
  - lia.
  - cbn. split; lra.
Defined.

Lemma parse_events_quits_witness :
  KeyboardControl_parse_events three_presets pygame_keys (fun x => x)
    (mkMods true false) [KEYUP 282; KEYUP 113; KEYUP 112] (fun _ => false)
    16 fresh_ui
  = (Ok true, with_hud (HUD_toggle_info (hud fresh_ui)) fresh_ui).
Proof.
  apply (proj1 (proj2 (parse_events_quits three_presets pygame_keys
                         (fun x => x) (mkMods true false)
                         [KEYUP 282; KEYUP 113; KEYUP 112] (fun _ => false)
                         16 fresh_ui))
           [KEYUP 282%Z] (KEYUP 113) [KEYUP 112%Z]);
    reflexivity.
Defined.

Lemma backspace_raises_witness :
  KeyboardControl_parse_events three_presets pygame_keys (fun x => x)
    (mkMods false false) ([KEYUP 282] ++ KEYUP 8 :: [QUIT]) (fun _ => false)
    16 fresh_ui
  = (Err (AttributeError "_get_random_blueprint"),
     with_hud (HUD_toggle_info (hud fresh_ui)) fresh_ui).
Proof.
  apply (backspace_raises three_presets pygame_keys (fun x => x)
           (mkMods false false) [KEYUP 282%Z] [QUIT] (fun _ => false) 16
           fresh_ui);
    reflexivity.
Defined.

(** ** The localization dataset *)

(** X21: [record_dataset] keeps the rows already in the file and appends one
    row of 12 fields: the location of the vehicle, the lane width, the offset
    from the vehicle to its nearest waypoint, the rotation of the waypoint,
    and the throttle and steer.  Adding the offset back to the location gives
    the location of the waypoint. *)
Theorem record_dataset_row (env : Env) (frame : Z) (ds : list (list Q)) :
  let loc := location (vehicle_transform env frame) in
  let waypoint := get_waypoint env loc in
  let w := location (transform waypoint) in
  exists row,
    record_dataset env frame ds = ds ++ [row] /\
    length row = 12%nat /\
    firstn 4 row = [loc_x loc; loc_y loc; loc_z loc; lane_width waypoint] /\
    skipn 7 row =
      [pitch (rotation (transform waypoint));
       yaw (rotation (transform waypoint));
       roll (rotation (transform waypoint));
       throttle (vehicle_control env frame);
       steer (vehicle_control env frame)] /\
    exists dx dy dz,
      firstn 3 (skipn 4 row) = [dx; dy; dz] /\
      loc_x loc + dx == loc_x w /\ loc_y loc + dy == loc_y w /\
      loc_z loc + dz == loc_z w.
Proof.
  cbv zeta. eexists. split; [reflexivity |].
  split; [reflexivity |]. split; [reflexivity |]. split; [reflexivity |].
  do 3 eexists. split; [reflexivity |]. repeat split; ring.
Qed.
